(** * PolicyAnchoredPPO: the update engine, the anchor, the good-policy
      archive and the task-change detector of [src/ppo.py]

    Conventions of the embedding.
    - Python objects are referred to by reference.  A policy object
      ([ActorCriticPolicy]) is a location [loc]; its parameters live in a
      store [heap], and the optimizer mutates the store in place.
    - Python [int] is [Z]; [//] and [%] are floor division and its
      remainder, i.e. [Z.div] and [Z.modulo].
    - Python [float] scalars that only take part in comparisons and means
      (episode rewards, [gp_threshold]) are rationals [Q], so that the
      control flow evaluates.  Torch tensors are lists of reals [R]
      ([th.exp] is the real exponential); rounding is not modelled.
    - A raised exception is returned next to the state reached when it was
      raised: attribute assignments made before the [raise] persist. *)

From Stdlib Require Import ZArith QArith Qminmax Reals Lra Lia Bool List.
From Stdlib Require Import Sorted Permutation.
Import ListNotations.

Set Implicit Arguments.

(** ** Object references and printed lines *)

Definition loc := nat.

Inductive exception :=
| IndexError
| AssertionError
| ZeroDivisionError
| UnboundLocalError.

(** Lines written by [print].  The standard deviation that the detector
    prints next to the two means is left out of the payload. *)
Inductive message :=
| SavingGoodPolicy
| TaskChangeDetected (num_timesteps ep_length : Z) (current_mean prev_mean : Q)
| EarlyStopping (epoch : nat) (approx_kl_div : R).

(** ** Trainer state: the attributes set by [__init__] that the archive and
       the detector read or write *)

Record trainer := mkTrainer {
  policy : loc;
  num_timesteps : Z;
  n_steps : Z;
  _ep_length : Z;
  gp_threshold : Q;
  gp_k : Z;
  anchor_policy : option loc;
  anchor_policy_timestep : Z;
  good_policies : list (loc * Q * Z);
  previous_rewards : list Q;
  td_counter : Z;
  episodic_rewards : list Q;
  _reward_grad_window : Z;
  stdout : list message
}.

Definition set_good_policies (self : trainer) (l : list (loc * Q * Z)) : trainer :=
  mkTrainer (policy self) (num_timesteps self) (n_steps self) (_ep_length self)
    (gp_threshold self) (gp_k self) (anchor_policy self)
    (anchor_policy_timestep self) l (previous_rewards self) (td_counter self)
    (episodic_rewards self) (_reward_grad_window self) (stdout self).

Definition set_previous_rewards (self : trainer) (l : list Q) : trainer :=
  mkTrainer (policy self) (num_timesteps self) (n_steps self) (_ep_length self)
    (gp_threshold self) (gp_k self) (anchor_policy self)
    (anchor_policy_timestep self) (good_policies self) l (td_counter self)
    (episodic_rewards self) (_reward_grad_window self) (stdout self).

Definition set_td_counter (self : trainer) (c : Z) : trainer :=
  mkTrainer (policy self) (num_timesteps self) (n_steps self) (_ep_length self)
    (gp_threshold self) (gp_k self) (anchor_policy self)
    (anchor_policy_timestep self) (good_policies self) (previous_rewards self) c
    (episodic_rewards self) (_reward_grad_window self) (stdout self).

Definition set_anchor_policy (self : trainer) (a : option loc) : trainer :=
  mkTrainer (policy self) (num_timesteps self) (n_steps self) (_ep_length self)
    (gp_threshold self) (gp_k self) a
    (anchor_policy_timestep self) (good_policies self) (previous_rewards self)
    (td_counter self) (episodic_rewards self) (_reward_grad_window self)
    (stdout self).

Definition set_anchor_policy_timestep (self : trainer) (t : Z) : trainer :=
  mkTrainer (policy self) (num_timesteps self) (n_steps self) (_ep_length self)
    (gp_threshold self) (gp_k self) (anchor_policy self)
    t (good_policies self) (previous_rewards self)
    (td_counter self) (episodic_rewards self) (_reward_grad_window self)
    (stdout self).

Definition set_episodic_rewards (self : trainer) (l : list Q) : trainer :=
  mkTrainer (policy self) (num_timesteps self) (n_steps self) (_ep_length self)
    (gp_threshold self) (gp_k self) (anchor_policy self)
    (anchor_policy_timestep self) (good_policies self) (previous_rewards self)
    (td_counter self) l (_reward_grad_window self) (stdout self).

Definition set_num_timesteps (self : trainer) (t : Z) : trainer :=
  mkTrainer (policy self) t (n_steps self) (_ep_length self)
    (gp_threshold self) (gp_k self) (anchor_policy self)
    (anchor_policy_timestep self) (good_policies self) (previous_rewards self)
    (td_counter self) (episodic_rewards self) (_reward_grad_window self)
    (stdout self).

Definition print (self : trainer) (m : message) : trainer :=
  mkTrainer (policy self) (num_timesteps self) (n_steps self) (_ep_length self)
    (gp_threshold self) (gp_k self) (anchor_policy self)
    (anchor_policy_timestep self) (good_policies self) (previous_rewards self)
    (td_counter self) (episodic_rewards self) (_reward_grad_window self)
    (stdout self ++ [m]).

(** ** Python list primitives used by the archive *)

(** [l[:k]]: a negative bound counts from the end. *)
Definition slice_to (A : Type) (l : list A) (k : Z) : list A :=
  if (0 <=? k)%Z then firstn (Z.to_nat k) l
  else firstn (Z.to_nat (Z.of_nat (length l) + k)) l.

(** The sort key [lambda x: x[2]]. *)
Definition timestep_of (x : loc * Q * Z) : Z := snd x.

(** [list.sort(key=lambda x: x[2], reverse=True)]: a stable sort, largest
    key first; records with equal keys keep their relative order. *)
Fixpoint insert_desc (x : loc * Q * Z) (l : list (loc * Q * Z)) : list (loc * Q * Z) :=
  match l with
  | [] => [x]
  | y :: l' =>
      if (timestep_of y <=? timestep_of x)%Z then x :: l
      else y :: insert_desc x l'
  end.

Definition sort_by_timestep_desc (l : list (loc * Q * Z)) : list (loc * Q * Z) :=
  fold_right insert_desc [] l.

(** [deque.append] on a [deque(maxlen=n)]: a full deque drops its oldest
    item. *)
Definition deque_append (maxlen : Z) (d : list Q) (x : Q) : list Q :=
  if (maxlen <=? 0)%Z then []
  else if (Z.of_nat (length d) <? maxlen)%Z then d ++ [x]
  else tl d ++ [x].

(** [np.mean] of a list of rewards. *)
Definition np_mean (l : list Q) : Q :=
  (fold_right Qplus 0 l / inject_Z (Z.of_nat (length l)))%Q.

(** ** [PolicyAnchoredPPO.update_good_policies] *)

Definition update_good_policies
    (self : trainer) (policy : loc) (reward : Q) (task_change : bool) : trainer :=
  if Qle_bool (gp_threshold self) reward || task_change then
    let self := print self SavingGoodPolicy in
    let appended := good_policies self ++ [(policy, reward, num_timesteps self)] in
    let sorted := sort_by_timestep_desc appended in
    set_good_policies self (slice_to sorted (gp_k self))
  else self.

(** ** [PolicyAnchoredPPO.detect_task_change] *)

(** The test [num_timesteps // 1e6 != (num_timesteps - n_steps) // 1e6]. *)
Definition crossed_million (self : trainer) : bool :=
  negb (num_timesteps self / 1000000 =? (num_timesteps self - n_steps self) / 1000000)%Z.

Definition detect_task_change
    (self : trainer) (current_rewards : list Q) : trainer * option exception :=
  match previous_rewards self with
  | [] => (self, None)
  | _ :: _ =>
      let prev_mean := np_mean (previous_rewards self) in
      let current_mean := np_mean current_rewards in
      if crossed_million self then
        let self := print self
          (TaskChangeDetected (num_timesteps self) (_ep_length self)
             current_mean prev_mean) in
        let self := set_td_counter self (td_counter self + 1) in
        match good_policies self with
        | [] => (self, Some IndexError)
        | (p, _, t) :: _ =>
            let self := set_anchor_policy self (Some p) in
            (set_anchor_policy_timestep self t, None)
        end
      else (self, None)
  end.

(** ** The task-change block at the end of [PolicyAnchoredPPO.train]

    [ep_info_buffer] is given by the episode returns it holds. *)
Definition task_change_detection
    (self : trainer) (ep_info_buffer : list Q) : trainer * option exception :=
  match ep_info_buffer with
  | [] => (self, None)
  | _ :: _ =>
      let current_rewards := ep_info_buffer in
      let accumulated_rewards := np_mean current_rewards in
      let self := set_episodic_rewards self
        (deque_append (_reward_grad_window self) (episodic_rewards self)
           accumulated_rewards) in
      match detect_task_change self current_rewards with
      | (self, Some e) => (self, Some e)
      | (self, None) =>
          let self := set_previous_rewards self current_rewards in
          (update_good_policies self (policy self) accumulated_rewards false, None)
      end
  end.

(** ** The sanity checks of [PolicyAnchoredPPO.__init__]

    [env] is [None] or an environment, given by its [num_envs]. *)

Inductive warning :=
| TruncatedMiniBatch (batch_size buffer_size untruncated_batches remainder : Z).

Inductive checked :=
| Raised (e : exception)
| Passed (warnings : list warning).

Definition init_checks
    (normalize_advantage : bool) (batch_size : Z) (env : option Z) (n_steps : Z)
    : checked :=
  if normalize_advantage && negb (1 <? batch_size)%Z then Raised AssertionError
  else
    match env with
    | None => Passed []
    | Some num_envs =>
        let buffer_size := (num_envs * n_steps)%Z in
        if negb ((1 <? buffer_size)%Z || negb normalize_advantage)
        then Raised AssertionError
        else if (batch_size =? 0)%Z then Raised ZeroDivisionError
        else
          let untruncated_batches := (buffer_size / batch_size)%Z in
          if (0 <? buffer_size mod batch_size)%Z
          then Passed [TruncatedMiniBatch batch_size buffer_size
                         untruncated_batches (buffer_size mod batch_size)]
          else Passed []
    end.

(** ** Tensors *)

Definition map2 (A B C : Type) (f : A -> B -> C) (l1 : list A) (l2 : list B) : list C :=
  map (fun ab => f (fst ab) (snd ab)) (combine l1 l2).

Definition th_sum (t : list R) : R := fold_right Rplus 0%R t.

Definition th_mean (t : list R) : R := (th_sum t / INR (length t))%R.

(** [Tensor.std()]: the unbiased estimator. *)
Definition th_std (t : list R) : R :=
  sqrt (th_sum (map (fun x => (x - th_mean t) * (x - th_mean t)) t)
        / (INR (length t) - 1))%R.

(** [th.clamp(x, lo, hi)]. *)
Definition th_clamp (x lo hi : R) : R := Rmin (Rmax x lo) hi.

Definition indicator (P : Prop) (d : {P} + {~ P}) : R :=
  if d then 1%R else 0%R.

(** ** The store of policy objects *)

Section UpdateEngine.

(** The policy class, its optimizer and the rollout buffer come from
    stable-baselines3 and torch. *)
Variable Params : Type.
Variable Obs Action : Type.

(** The state of the random generator at a call of the policy. *)
Variable Noise : Type.

(** [policy.evaluate_actions(obs, actions)]: values, log-probabilities and
    the entropy, which is [None] when it has no analytical form. *)
Variable evaluate_actions :
  Params -> list Obs -> list Action -> list R * list R * option (list R).

(** The third output of [policy(obs)]: for each observation, the
    log-probability of the action that this call samples for it.  Two calls
    draw their actions independently, each from its own noise. *)
Variable forward_log_prob : Params -> list Obs -> Noise -> list R.

(** [optimizer.zero_grad(); loss.backward(); clip_grad_norm_(parameters,
    max_grad_norm); optimizer.step()] on the parameters of the live policy,
    the loss being given as a function of those parameters. *)
Variable optimizer_step : (Params -> R) -> R -> Params -> Params.

Definition heap := loc -> Params.

Definition heap_set (h : heap) (l : loc) (p : Params) : heap :=
  fun l' => if Nat.eqb l' l then p else h l'.

Record rollout_data := mkRollout {
  observations : list Obs;
  actions : list Action;
  old_values : list R;
  old_log_prob : list R;
  advantages : list R;
  returns : list R
}.

Record hyperparams := mkHyper {
  batch_size : Z;
  n_epochs : nat;
  normalize_advantage : bool;
  ent_coef : R;
  vf_coef : R;
  max_grad_norm : R;
  target_kl : option R;
  anchor_pol_sample_size : nat;
  anchor_pol_kl_coef : R;
  verbose : Z
}.

(** What is drawn at random on one minibatch: the indices of [th.randint]
    and the noise of the two calls [self.anchor_policy(sampled_states)] and
    [self.policy(sampled_states)]. *)
Record draws := mkDraws {
  sampled_state_indices : list nat;
  anchor_noise : Noise;
  curr_noise : Noise
}.

(** [observations[sampled_state_indices]]; [th.randint] draws the indices
    below the number of observations. *)
Definition index_select (obs : list Obs) (indices : list nat) : list Obs :=
  flat_map (fun i => match nth_error obs i with
                     | Some o => [o]
                     | None => []
                     end) indices.

(** *** One minibatch of [train] *)

Definition normalize (normalize_advantage : bool) (advantages : list R) : list R :=
  if normalize_advantage && (1 <? length advantages)%nat then
    map (fun a => (a - th_mean advantages) / (th_std advantages + 1 / 100000000))%R
      advantages
  else advantages.

Definition anchor_policy_kl_div
    (h : heap) (anchor : option loc) (live : loc) (sampled_states : list Obs)
    (anchor_noise curr_noise : Noise) : R :=
  match anchor with
  | None => 0%R
  | Some a =>
      let anchor_policy_log_probs :=
        forward_log_prob (h a) sampled_states anchor_noise in
      let curr_policy_log_probs :=
        forward_log_prob (h live) sampled_states curr_noise in
      let anchor_policy_probs := map exp anchor_policy_log_probs in
      th_mean
        (map2 Rmult anchor_policy_probs
           (map2 Rminus anchor_policy_log_probs curr_policy_log_probs))
  end.

(** [th.min(policy_loss_1, policy_loss_2)] at one sample. *)
Definition clipped_surrogate (clip_range advantage ratio : R) : R :=
  Rmin (advantage * ratio)
       (advantage * th_clamp ratio (1 - clip_range) (1 + clip_range)).

(** [policy_loss] at one sample, before [policy_loss.mean()]. *)
Definition policy_loss_term
    (clip_range anchor_pol_kl_coef anchor_kl advantage ratio : R) : R :=
  (- clipped_surrogate clip_range advantage ratio
   + anchor_pol_kl_coef * anchor_kl)%R.

Record minibatch_losses := mkLosses {
  l_policy_loss : R;
  l_clip_fraction : R;
  l_value_loss : R;
  l_entropy_loss : R;
  l_approx_kl_div : R;
  l_anchor_kl_div : R;
  l_loss : R
}.

Definition compute_losses
    (h : heap) (self : trainer) (hp : hyperparams)
    (clip_range : R) (clip_range_vf : option R)
    (data : rollout_data) (drawn : draws) : minibatch_losses :=
  let '(values, log_prob, entropy) :=
    evaluate_actions (h (policy self)) (observations data) (actions data) in
  let advantages := normalize (normalize_advantage hp) (advantages data) in
  let ratio := map exp (map2 Rminus log_prob (old_log_prob data)) in
  let sampled_states :=
    index_select (observations data) (sampled_state_indices drawn) in
  let anchor_kl :=
    anchor_policy_kl_div h (anchor_policy self) (policy self) sampled_states
      (anchor_noise drawn) (curr_noise drawn) in
  let policy_loss :=
    th_mean (map2 (policy_loss_term clip_range (anchor_pol_kl_coef hp) anchor_kl)
               advantages ratio) in
  let clip_fraction :=
    th_mean (map (fun r => indicator (Rgt_dec (Rabs (r - 1)) clip_range)) ratio) in
  let values_pred :=
    match clip_range_vf with
    | None => values
    | Some c =>
        map2 (fun old v => old + th_clamp (v - old) (- c) c)%R (old_values data) values
    end in
  let value_loss :=
    th_mean (map2 (fun r v => (r - v) * (r - v))%R (returns data) values_pred) in
  let entropy_loss :=
    match entropy with
    | None => (- th_mean (map Ropp log_prob))%R
    | Some e => (- th_mean e)%R
    end in
  let log_ratio := map2 Rminus log_prob (old_log_prob data) in
  let approx_kl_div :=
    th_mean (map (fun lr => (exp lr - 1) - lr)%R log_ratio) in
  let loss :=
    (policy_loss + ent_coef hp * entropy_loss + vf_coef hp * value_loss)%R in
  mkLosses policy_loss clip_fraction value_loss entropy_loss approx_kl_div
    anchor_kl loss.

(** The optimization step on one minibatch.  The loss is differentiated
    with respect to the parameters of [self.policy]; every object of the
    store that is [self.policy] reads the same parameters. *)
Definition optimization_step
    (h : heap) (self : trainer) (hp : hyperparams)
    (clip_range : R) (clip_range_vf : option R)
    (data : rollout_data) (drawn : draws) : heap :=
  let live := policy self in
  heap_set h live
    (optimizer_step
       (fun p => l_loss (compute_losses (heap_set h live p) self hp
                           clip_range clip_range_vf data drawn))
       (max_grad_norm hp) (h live)).

(** [self.target_kl is not None and approx_kl_div > 1.5 * self.target_kl]. *)
Definition exceeds_target_kl (target_kl : option R) (approx_kl_div : R) : bool :=
  match target_kl with
  | None => false
  | Some t => if Rgt_dec approx_kl_div (1.5 * t) then true else false
  end.

(** *** The two loops of [train] *)

Record loop_state := mkLoop {
  self_ : trainer;
  store : heap;
  _n_updates : nat;
  entropy_losses : list R;
  pg_losses : list R;
  value_losses : list R;
  clip_fractions : list R;
  approx_kl_divs : list R
}.

(** The body of the inner loop up to the early-stopping test: the losses
    are computed and logged. *)
Definition log_losses (st : loop_state) (l : minibatch_losses) : loop_state :=
  mkLoop (self_ st) (store st) (_n_updates st)
    (entropy_losses st ++ [l_entropy_loss l])
    (pg_losses st ++ [l_policy_loss l])
    (value_losses st ++ [l_value_loss l])
    (clip_fractions st ++ [l_clip_fraction l])
    (approx_kl_divs st ++ [l_approx_kl_div l]).

Definition set_store (st : loop_state) (h : heap) : loop_state :=
  mkLoop (self_ st) h (_n_updates st) (entropy_losses st) (pg_losses st)
    (value_losses st) (clip_fractions st) (approx_kl_divs st).

Definition set_self (st : loop_state) (self : trainer) : loop_state :=
  mkLoop self (store st) (_n_updates st) (entropy_losses st) (pg_losses st)
    (value_losses st) (clip_fractions st) (approx_kl_divs st).

Definition begin_epoch (st : loop_state) : loop_state :=
  mkLoop (self_ st) (store st) (_n_updates st) (entropy_losses st) (pg_losses st)
    (value_losses st) (clip_fractions st) [].

Definition end_epoch (st : loop_state) : loop_state :=
  mkLoop (self_ st) (store st) (S (_n_updates st)) (entropy_losses st)
    (pg_losses st) (value_losses st) (clip_fractions st) (approx_kl_divs st).

(** [for rollout_data in self.rollout_buffer.get(self.batch_size)]; the
    result is the state and [continue_training]. *)
Fixpoint run_minibatches
    (hp : hyperparams) (clip_range : R) (clip_range_vf : option R) (epoch : nat)
    (st : loop_state) (batches : list (rollout_data * draws))
    : loop_state * bool :=
  match batches with
  | [] => (st, true)
  | (data, drawn) :: rest =>
      let l := compute_losses (store st) (self_ st) hp clip_range clip_range_vf
                 data drawn in
      let st := log_losses st l in
      if exceeds_target_kl (target_kl hp) (l_approx_kl_div l) then
        let st :=
          if (1 <=? verbose hp)%Z
          then set_self st (print (self_ st) (EarlyStopping epoch (l_approx_kl_div l)))
          else st in
        (st, false)
      else
        let st := set_store st
          (optimization_step (store st) (self_ st) hp clip_range clip_range_vf
             data drawn) in
        run_minibatches hp clip_range clip_range_vf epoch st rest
  end.

(** [for epoch in range(self.n_epochs)], on the epochs still to run. *)
Fixpoint run_epochs
    (hp : hyperparams) (clip_range : R) (clip_range_vf : option R)
    (rollout_buffer_get : nat -> list (rollout_data * draws))
    (st : loop_state) (epochs : list nat) : loop_state :=
  match epochs with
  | [] => st
  | epoch :: later =>
      let '(st, continue_training) :=
        run_minibatches hp clip_range clip_range_vf epoch (begin_epoch st)
          (rollout_buffer_get epoch) in
      let st := end_epoch st in
      if continue_training
      then run_epochs hp clip_range clip_range_vf rollout_buffer_get st later
      else st
  end.

(** The records sent to the logger at the end of [train].  The means of
    the logged lists are taken whatever their length, but
    [np.mean(approx_kl_divs)] reads a variable that only an epoch binds, and
    [loss.item()], like the records after it, one that only a minibatch
    binds: read unbound, they raise [UnboundLocalError]. *)
Definition logging_tail (n_epochs : nat) (st : loop_state) : option exception :=
  if (n_epochs =? 0)%nat then Some UnboundLocalError
  else
    match pg_losses st with
    | [] => Some UnboundLocalError
    | _ :: _ => None
    end.

(** *** [PolicyAnchoredPPO.train]

    [rollout_buffer_get epoch] is what [self.rollout_buffer.get] yields in
    that epoch, each minibatch with what is drawn at random for it.  The
    records sent to the logger are not part of the state; an exception of
    the task-change block leaves [train] before the logger is reached. *)
Definition train
    (self : trainer) (h : heap) (n_updates : nat) (hp : hyperparams)
    (clip_range : R) (clip_range_vf : option R)
    (rollout_buffer_get : nat -> list (rollout_data * draws))
    (ep_info_buffer : list Q) : loop_state * option exception :=
  let st := mkLoop self h n_updates [] [] [] [] [] in
  let st := run_epochs hp clip_range clip_range_vf rollout_buffer_get st
              (seq 0 (n_epochs hp)) in
  let '(self, e) := task_change_detection (self_ st) ep_info_buffer in
  (set_self st self,
   match e with
   | Some e => Some e
   | None => logging_tail (n_epochs hp) st
   end).

End UpdateEngine.

(** ** The trainer as [__init__] leaves it, and a run of the archive *)

Definition init_trainer
    (policy : loc) (n_steps : Z) (gp_threshold : Q) (gp_k : Z) (eps_length : Z)
    : trainer :=
  mkTrainer policy 0 n_steps eps_length gp_threshold gp_k None (-1) [] [] 0 []
    ((100000 + eps_length) / eps_length) [].

(** [update_good_policies(self.policy, reward)] called once for each
    [(reward, timestep)], the step counter standing at [timestep]. *)
Definition consider_all (self : trainer) (calls : list (Q * Z)) : trainer :=
  fold_left
    (fun self call =>
       update_good_policies (set_num_timesteps self (snd call)) (policy self)
         (fst call) false)
    calls self.

(** Largest timestep first. *)
Definition newer_first (x y : loc * Q * Z) : Prop :=
  (timestep_of y <= timestep_of x)%Z.

(** ** A tabular policy, to run the update engine on concrete inputs

    Its parameters are the log-probabilities of the actions, the same in
    every state; the value estimate is zero and the entropy has no
    analytical form.  The noise of a call is the list of the actions it
    samples, one for each observation.  Its optimizer moves every parameter
    by one. *)
Definition tabular_evaluate_actions
    (p : list R) (obs : list unit) (acts : list nat)
    : list R * list R * option (list R) :=
  (map (fun _ => 0%R) acts, map (fun a => nth a p 0%R) acts, None).

Definition tabular_forward_log_prob
    (p : list R) (obs : list unit) (sampled_actions : list nat) : list R :=
  map2 (fun _ a => nth a p 0%R) obs sampled_actions.

(** The draw of the first observation, each call sampling action 0. *)
Definition first_state : draws (list nat) := mkDraws [0%nat] [0%nat] [0%nat].

Definition shift_optimizer_step (loss : list R -> R) (max_grad_norm : R) (p : list R)
    : list R :=
  map (fun x => x + 1)%R p.

(** ** Sharing between the archive, the anchor and the live policy

    Every reference held by the archive, and the anchor when there is one,
    is the reference of the live policy. *)
Definition aliases_live_policy (self : trainer) : Prop :=
  Forall (fun record : loc * Q * Z => fst (fst record) = policy self)
    (good_policies self) /\
  (anchor_policy self = None \/ anchor_policy self = Some (policy self)).

(** Two trainers that hold the same references. *)
Definition same_references (s s' : trainer) : Prop :=
  policy s' = policy s /\ good_policies s' = good_policies s /\
  anchor_policy s' = anchor_policy s.

(** ** The runs of the archive and the sizing of the reward window *)

(** The records that a run of the archive accepts: one for each call whose
    reward reaches the threshold, in the order of the calls. *)
Definition accepted_records (p : loc) (threshold : Q) (calls : list (Q * Z))
    : list (loc * Q * Z) :=
  map (fun call => (p, fst call, snd call))
    (filter (fun call => Qle_bool threshold (fst call)) calls).


(** [self._reward_grad_window = (100_000 + self._ep_length) // self._ep_length]
    followed by [deque(maxlen=self._reward_grad_window)] in [__init__]: the
    division raises on a zero episode length, and [deque] raises
    [ValueError] on a negative [maxlen]. *)
Inductive window :=
| WindowZeroDivisionError
| WindowValueError
| Window (maxlen : Z).

Definition reward_grad_window (eps_length : Z) : window :=
  if (eps_length =? 0)%Z then WindowZeroDivisionError
  else
    let w := ((100000 + eps_length) / eps_length)%Z in
    if (w <? 0)%Z then WindowValueError else Window w.

(** [k] successive calls of the detector, the step counter advancing by
    [n_steps] before each call, as it does from one iteration to the next
    with a single environment. *)
Fixpoint detector_run (k : nat) (self : trainer) (current_rewards : list Q)
    : trainer :=
  match k with
  | O => self
  | S k' =>
      detector_run k'
        (fst (detect_task_change
                (set_num_timesteps self (num_timesteps self + n_steps self))
                current_rewards))
        current_rewards
  end.

(** * Properties *)

(** ** The good-policy archive *)

Lemma insert_desc_perm x l : Permutation (insert_desc x l) (x :: l).
Proof.
  induction l as [|y l IH]; simpl; [reflexivity|].
  destruct (timestep_of y <=? timestep_of x)%Z; [reflexivity|].
  rewrite IH. apply perm_swap.
Qed.

Lemma sort_by_timestep_desc_perm l : Permutation (sort_by_timestep_desc l) l.
Proof.
  induction l as [|x l IH]; simpl; [reflexivity|].
  rewrite insert_desc_perm. now constructor.
Qed.

Lemma insert_desc_sorted x l :
  StronglySorted newer_first l -> StronglySorted newer_first (insert_desc x l).
Proof.
  induction 1 as [|y l Hs IH Hy]; simpl.
  - repeat constructor.
  - destruct (timestep_of y <=? timestep_of x)%Z eqn:E.
    + apply Z.leb_le in E. constructor; [now constructor|].
      constructor; [exact E|].
      rewrite Forall_forall in *. intros z Hz. specialize (Hy z Hz).
      unfold newer_first in *. lia.
    + apply Z.leb_gt in E. constructor; [exact IH|].
      rewrite Forall_forall in *. intros z Hz.
      apply (Permutation_in _ (insert_desc_perm x l)) in Hz.
      destruct Hz as [<-|Hz]; [unfold newer_first; lia | now apply Hy].
Qed.

Lemma sort_by_timestep_desc_sorted l :
  StronglySorted newer_first (sort_by_timestep_desc l).
Proof.
  induction l; simpl; [constructor | now apply insert_desc_sorted].
Qed.

Lemma In_firstn (A : Type) (x : A) n : forall l, In x (firstn n l) -> In x l.
Proof.
  induction n as [|n IH]; intros [|y l]; simpl; try tauto.
  intros [->|H]; [now left | right; now apply IH].
Qed.

Lemma firstn_sorted n (l : list (loc * Q * Z)) :
  StronglySorted newer_first l -> StronglySorted newer_first (firstn n l).
Proof.
  intros H. revert n. induction H as [|x l Hs IH Hx]; intros [|n]; simpl;
    try constructor; auto.
  rewrite Forall_forall in *. intros z Hz. apply Hx.
  now apply (In_firstn _ n l).
Qed.

Lemma slice_to_sorted l k :
  StronglySorted newer_first l -> StronglySorted newer_first (slice_to l k).
Proof. unfold slice_to. destruct (0 <=? k)%Z; apply firstn_sorted. Qed.

Lemma slice_to_length (A : Type) (l : list A) k :
  (0 <= k)%Z -> (Z.of_nat (length (slice_to l k)) <= k)%Z.
Proof.
  intros Hk. unfold slice_to. destruct (Z.leb_spec 0 k) as [_|Hneg]; [|lia].
  rewrite length_firstn. lia.
Qed.

Lemma slice_to_prefix (A : Type) (l : list A) k :
  exists dropped, l = slice_to l k ++ dropped.
Proof.
  unfold slice_to. destruct (0 <=? k)%Z; eexists; symmetry; apply firstn_skipn.
Qed.

Lemma admission_test self reward task_change :
  Qle_bool (gp_threshold self) reward || task_change = true <->
  (gp_threshold self <= reward)%Q \/ task_change = true.
Proof. rewrite orb_true_iff, Qle_bool_iff. reflexivity. Qed.

Lemma update_good_policies_accepted self p reward task_change :
  (gp_threshold self <= reward)%Q \/ task_change = true ->
  update_good_policies self p reward task_change =
  set_good_policies (print self SavingGoodPolicy)
    (slice_to (sort_by_timestep_desc
                 (good_policies self ++ [(p, reward, num_timesteps self)]))
       (gp_k self)).
Proof.
  intros H. apply admission_test in H. unfold update_good_policies.
  now rewrite H.
Qed.

Lemma update_good_policies_rejected self p reward task_change :
  ~ ((gp_threshold self <= reward)%Q \/ task_change = true) ->
  update_good_policies self p reward task_change = self.
Proof.
  intros H. rewrite <- admission_test in H. unfold update_good_policies.
  destruct (Qle_bool (gp_threshold self) reward || task_change); congruence.
Qed.

Lemma update_good_policies_gp_k self p reward task_change :
  gp_k (update_good_policies self p reward task_change) = gp_k self.
Proof.
  unfold update_good_policies.
  now destruct (Qle_bool (gp_threshold self) reward || task_change).
Qed.

Lemma update_good_policies_bounded self p reward task_change :
  (0 <= gp_k self)%Z ->
  (Z.of_nat (length (good_policies self)) <= gp_k self)%Z ->
  (Z.of_nat (length (good_policies
      (update_good_policies self p reward task_change))) <= gp_k self)%Z.
Proof.
  intros Hk Hlen. unfold update_good_policies.
  destruct (Qle_bool (gp_threshold self) reward || task_change); [|exact Hlen].
  simpl. now apply slice_to_length.
Qed.

Lemma consider_all_bounded calls : forall self,
  (0 <= gp_k self)%Z ->
  (Z.of_nat (length (good_policies self)) <= gp_k self)%Z ->
  (Z.of_nat (length (good_policies (consider_all self calls))) <= gp_k self)%Z.
Proof.
  induction calls as [|c calls IH]; intros self Hk Hlen; simpl; [exact Hlen|].
  unfold consider_all in IH.
  set (s := update_good_policies _ _ _ _).
  assert (Hg : gp_k s = gp_k self)
    by (unfold s; now rewrite update_good_policies_gp_k).
  rewrite <- Hg. apply IH; rewrite Hg; [exact Hk|].
  now apply (update_good_policies_bounded (set_num_timesteps self (snd c))).
Qed.

(** C6, as stated, fails for a negative capacity, which the constructor
    accepts: the slice [[:gp_k]] then drops records from the end of the
    sorted archive instead of keeping [gp_k] of them, and the archive is
    longer than [gp_k].  With [gp_k = -1] an admission to the empty archive
    leaves it empty, of length 0 > -1, and an admission to an archive of
    three records leaves three. *)
Lemma archive_capacity_counterexample :
  let self := init_trainer 0%nat 512 (5 # 10) (-1) 512 in
  let filled :=
    set_num_timesteps
      (set_good_policies self
         [(0%nat, 9 # 10, 300%Z); (0%nat, 8 # 10, 200%Z); (0%nat, 7 # 10, 100%Z)])
      400 in
  good_policies (update_good_policies self 0%nat (6 # 10) false) = [] /\
  (gp_k self
   < Z.of_nat (length (good_policies
                         (update_good_policies self 0%nat (6 # 10) false))))%Z /\
  good_policies (update_good_policies filled 0%nat (6 # 10) false)
  = [(0%nat, 6 # 10, 400%Z); (0%nat, 9 # 10, 300%Z); (0%nat, 8 # 10, 200%Z)] /\
  (gp_k filled
   < Z.of_nat (length (good_policies
                         (update_good_policies filled 0%nat (6 # 10) false))))%Z.
Proof. cbv zeta. repeat split. Qed.

(** C6, amended.  A record is admitted exactly when [reward >= gp_threshold]
    or the task-change flag is set; for a capacity [gp_k >= 0] an admission
    leaves the first [gp_k] records of the archive with the new record
    appended and sorted by timestep, largest first, so the archive is sorted
    and never longer than [gp_k], also along any sequence of calls from the
    empty archive.  With threshold 0.5 and capacity 2 the calls (0.3, 100),
    (0.6, 200), (0.7, 300), (0.9, 400) leave the records of timesteps 400
    and 300, in that order: the one of timestep 100 is not admitted and the
    one of timestep 200 is admitted, then dropped. *)
Theorem archive_admission_and_retention :
  forall (self : trainer) (p : loc) (reward : Q) (task_change : bool),
    (0 <= gp_k self)%Z ->
    let accept := (gp_threshold self <= reward)%Q \/ task_change = true in
    let after := update_good_policies self p reward task_change in
    let record := (p, reward, num_timesteps self) in
    (accept ->
       (exists dropped,
          Permutation (good_policies self ++ [record])
            (good_policies after ++ dropped) /\
          Forall (fun d => Forall (fun kept => newer_first kept d)
                             (good_policies after)) dropped) /\
       good_policies after =
         slice_to (sort_by_timestep_desc (good_policies self ++ [record]))
           (gp_k self) /\
       StronglySorted newer_first (good_policies after) /\
       (Z.of_nat (length (good_policies after)) <= gp_k self)%Z) /\
    (~ accept -> good_policies after = good_policies self) /\
    (forall calls,
       (Z.of_nat (length (good_policies
          (consider_all (set_good_policies self []) calls))) <= gp_k self)%Z) /\
    (let t0 := init_trainer p 512 (5 # 10) 2 512 in
     good_policies (consider_all t0 [(3 # 10, 100%Z)]) = [] /\
     good_policies (consider_all t0 [(3 # 10, 100%Z); (6 # 10, 200%Z)])
       = [(p, 6 # 10, 200%Z)] /\
     good_policies (consider_all t0
        [(3 # 10, 100%Z); (6 # 10, 200%Z); (7 # 10, 300%Z); (9 # 10, 400%Z)])
       = [(p, 9 # 10, 400%Z); (p, 7 # 10, 300%Z)]).
Proof.
  intros self p reward task_change Hk accept after record.
  split; [|split; [|split]].
  - intros Ha. subst after.
    rewrite (update_good_policies_accepted self p Ha). simpl. fold record.
    set (sorted := sort_by_timestep_desc (good_policies self ++ [record])).
    assert (Hs : StronglySorted newer_first sorted)
      by apply sort_by_timestep_desc_sorted.
    repeat split.
    + destruct (slice_to_prefix sorted (gp_k self)) as [dropped Hd].
      exists dropped.
      assert (Hp : Permutation (good_policies self ++ [record]) sorted)
        by (symmetry; apply sort_by_timestep_desc_perm).
      remember (slice_to sorted (gp_k self)) as kept eqn:Hkept.
      clear Hkept. subst sorted. rewrite Hd in Hs, Hp. clear Hd.
      split; [exact Hp|]. clear Hp.
      induction kept as [|x kept IH]; simpl in Hs.
      * apply Forall_forall. intros; constructor.
      * inversion Hs as [|? ? Hs' Hx]; subst.
        specialize (IH Hs'). rewrite Forall_forall in *.
        intros d Hin. constructor; [|now apply IH].
        apply Hx. apply in_or_app. now right.
    + now apply slice_to_sorted.
    + now apply slice_to_length.
  - intros Hn. subst after. now rewrite update_good_policies_rejected.
  - intros calls.
    change (gp_k self) with (gp_k (set_good_policies self [])).
    apply consider_all_bounded; simpl; [exact Hk | lia].
  - repeat split.
Qed.

Lemma archive_admission_and_retention_witness :
  good_policies (update_good_policies (init_trainer 0%nat 512 (5 # 10) 2 512)
                   0%nat (6 # 10) false)
  = [(0%nat, 6 # 10, 0%Z)].
Proof.
  pose proof (archive_admission_and_retention
                (init_trainer 0%nat 512 (5 # 10) 2 512) 0%nat (6 # 10) false) as H.
  simpl in H. destruct H as [H _]; [lia|].
  destruct H as (_ & H & _); [left; unfold Qle; simpl; lia|].
  exact H.
Defined.

(** C10.  A call of [update_good_policies] with a reward below the
    threshold and the flag unset changes nothing: the trainer it returns is
    the one it was given, archive, printed lines and all. *)
Theorem update_good_policies_noop :
  forall (self : trainer) (p : loc) (reward : Q),
    (reward < gp_threshold self)%Q ->
    update_good_policies self p reward false = self.
Proof.
  intros self p reward Hlt. apply update_good_policies_rejected.
  intros [Hle | Hflag]; [|discriminate].
  apply Qlt_not_le in Hlt. contradiction.
Qed.

Lemma update_good_policies_noop_witness :
  update_good_policies (init_trainer 0%nat 512 (5 # 10) 2 512) 0%nat (3 # 10) false
  = init_trainer 0%nat 512 (5 # 10) 2 512.
Proof.
  apply update_good_policies_noop. unfold Qlt; simpl; lia.
Defined.

(** ** The task-change detector *)

Lemma crossed_million_spec self :
  crossed_million self = true <->
  (num_timesteps self / 1000000 <> (num_timesteps self - n_steps self) / 1000000)%Z.
Proof.
  unfold crossed_million. rewrite negb_true_iff, Z.eqb_neq. reflexivity.
Qed.

Lemma detect_task_change_skipped self current_rewards :
  previous_rewards self = [] ->
  detect_task_change self current_rewards = (self, None).
Proof. intros H. unfold detect_task_change. now rewrite H. Qed.

Lemma detect_task_change_quiet self current_rewards :
  crossed_million self = false ->
  detect_task_change self current_rewards = (self, None).
Proof.
  intros H. unfold detect_task_change. rewrite H.
  now destruct (previous_rewards self).
Qed.

Lemma detect_task_change_counter self current_rewards :
  previous_rewards self <> [] ->
  td_counter (fst (detect_task_change self current_rewards)) =
  (if crossed_million self then td_counter self + 1 else td_counter self)%Z.
Proof.
  intros H. unfold detect_task_change.
  destruct (previous_rewards self) as [|r rs]; [congruence|].
  destruct (crossed_million self); [|reflexivity].
  simpl. now destruct (good_policies self) as [|[[p q] t] l].
Qed.

(** C2.  What the detector does when the boundary test fires on an empty
    archive: the call raises [IndexError], after the counter has been
    incremented; the anchor is as before, and in [train] the exception
    leaves the block before [previous_rewards] and the archive are
    updated. *)
Theorem detect_task_change_empty_archive_raises :
  forall (self : trainer) (current_rewards : list Q),
    previous_rewards self <> [] ->
    crossed_million self = true ->
    good_policies self = [] ->
    let after := fst (detect_task_change self current_rewards) in
    snd (detect_task_change self current_rewards) = Some IndexError /\
    td_counter after = (td_counter self + 1)%Z /\
    anchor_policy after = anchor_policy self /\
    anchor_policy_timestep after = anchor_policy_timestep self /\
    (current_rewards <> [] ->
     snd (task_change_detection self current_rewards) = Some IndexError /\
     previous_rewards (fst (task_change_detection self current_rewards))
       = previous_rewards self).
Proof.
  intros self current_rewards Hprev Hcross Hempty after.
  assert (Hd : forall s,
             previous_rewards s = previous_rewards self ->
             crossed_million s = true -> good_policies s = [] ->
             snd (detect_task_change s current_rewards) = Some IndexError /\
             td_counter (fst (detect_task_change s current_rewards))
               = (td_counter s + 1)%Z /\
             anchor_policy (fst (detect_task_change s current_rewards))
               = anchor_policy s /\
             anchor_policy_timestep (fst (detect_task_change s current_rewards))
               = anchor_policy_timestep s /\
             previous_rewards (fst (detect_task_change s current_rewards))
               = previous_rewards s).
  { intros s Hp Hc He. unfold detect_task_change. rewrite Hp, Hc.
    destruct (previous_rewards self) as [|r rs]; [congruence|].
    simpl. rewrite He. simpl. now rewrite Hp. }
  destruct (Hd self eq_refl Hcross Hempty) as (H1 & H2 & H3 & H4 & _).
  repeat split; try assumption.
  - destruct current_rewards as [|c cs]; [congruence|].
    unfold task_change_detection.
    set (s := set_episodic_rewards self _).
    destruct (Hd s eq_refl Hcross Hempty) as (E & _).
    destruct (detect_task_change s (c :: cs)) as [s' [e|]]; simpl in *; congruence.
  - destruct current_rewards as [|c cs]; [congruence|].
    unfold task_change_detection.
    set (s := set_episodic_rewards self _).
    destruct (Hd s eq_refl Hcross Hempty) as (E & _ & _ & _ & P).
    destruct (detect_task_change s (c :: cs)) as [s' [e|]]; simpl in *; congruence.
Qed.

Lemma detect_task_change_empty_archive_raises_witness :
  snd (detect_task_change
         (set_previous_rewards
            (set_num_timesteps (init_trainer 0%nat 512 (5 # 10) 5 512) 1000312)
            [1%Q])
         [1%Q])
  = Some IndexError.
Proof.
  apply detect_task_change_empty_archive_raises;
    [discriminate | reflexivity | reflexivity].
Defined.

(** C4, as stated, fails on the first call: with no previous rewards the
    detector returns before the boundary test, so a call whose step count
    crossed the first million declares nothing. *)
Lemma detector_trigger_counterexample :
  let self := set_num_timesteps (init_trainer 0%nat 512 (5 # 10) 5 512) 1000312 in
  (num_timesteps self / 1000000 <> (num_timesteps self - n_steps self) / 1000000)%Z /\
  detect_task_change self [1%Q] = (self, None) /\
  td_counter (fst (detect_task_change self [1%Q])) = td_counter self.
Proof.
  cbv zeta. split; [|split; reflexivity].
  vm_compute. discriminate.
Qed.

(** C4, amended.  A detector call with no previous rewards declares nothing
    and returns the trainer as it is.  A call with previous rewards declares
    a task change, i.e. increments the task-change counter, if and only if
    [num_timesteps // 1e6] differs from [(num_timesteps - n_steps) // 1e6];
    with [n_steps = 512] the call at 1,000,312 steps declares one, the call
    before it at 999,800 steps does not, and neither does a later call whose
    step counts stay inside the same million. *)
Theorem detector_trigger_amended :
  forall (self : trainer) (current_rewards : list Q),
    (previous_rewards self = [] ->
     detect_task_change self current_rewards = (self, None)) /\
    (previous_rewards self <> [] ->
     let after := fst (detect_task_change self current_rewards) in
     (td_counter after = (td_counter self + 1)%Z <->
      (num_timesteps self / 1000000
         <> (num_timesteps self - n_steps self) / 1000000)%Z) /\
     (td_counter after = td_counter self <->
      (num_timesteps self / 1000000
         = (num_timesteps self - n_steps self) / 1000000)%Z) /\
     (n_steps self = 512%Z -> num_timesteps self = 1000312%Z ->
      td_counter after = (td_counter self + 1)%Z) /\
     (n_steps self = 512%Z -> num_timesteps self = 999800%Z ->
      td_counter after = td_counter self) /\
     (n_steps self = 512%Z ->
      (1000000 <= num_timesteps self - 512)%Z -> (num_timesteps self < 2000000)%Z ->
      td_counter after = td_counter self)).
Proof.
  intros self current_rewards. split.
  - apply detect_task_change_skipped.
  - intros Hprev after. subst after.
    rewrite (detect_task_change_counter self current_rewards Hprev).
    pose proof (crossed_million_spec self) as Hc.
    assert (Hband : forall n, (1000000 <= n < 2000000)%Z -> (n / 1000000 = 1)%Z).
    { intros n Hn. symmetry. apply (Z.div_unique n 1000000 1 (n - 1000000)); lia. }
    destruct (crossed_million self) eqn:E.
    + assert (Hne : (num_timesteps self / 1000000
                <> (num_timesteps self - n_steps self) / 1000000)%Z)
        by now apply Hc.
      repeat split; intros; try lia; try assumption.
      * exfalso. apply Hne. replace (n_steps self) with 512%Z by congruence.
        replace (num_timesteps self) with 999800%Z by congruence. reflexivity.
      * exfalso. apply Hne. replace (n_steps self) with 512%Z by congruence.
        rewrite !Hband; lia.
    + assert (Heq : (num_timesteps self / 1000000
                = (num_timesteps self - n_steps self) / 1000000)%Z).
      { destruct (Z.eq_dec (num_timesteps self / 1000000)
                    ((num_timesteps self - n_steps self) / 1000000)) as [e|n];
          [exact e | apply Hc in n; discriminate]. }
      repeat split; intros; try lia; try assumption.
      exfalso.
      replace (n_steps self) with 512%Z in Heq by congruence.
      replace (num_timesteps self) with 1000312%Z in Heq by congruence.
      vm_compute in Heq. discriminate.
Qed.

Lemma detector_trigger_amended_witness :
  td_counter (fst (detect_task_change
     (set_previous_rewards
        (set_num_timesteps (init_trainer 0%nat 512 (5 # 10) 5 512) 1000312)
        [1%Q])
     [1%Q])) = 1%Z.
Proof.
  pose proof (detector_trigger_amended
    (set_previous_rewards
       (set_num_timesteps (init_trainer 0%nat 512 (5 # 10) 5 512) 1000312) [1%Q])
    [1%Q]) as [_ H].
  destruct H as (_ & _ & H & _); [discriminate|].
  apply H; reflexivity.
Defined.

Lemma update_good_policies_td_counter self p reward task_change :
  td_counter (update_good_policies self p reward task_change) = td_counter self.
Proof.
  unfold update_good_policies.
  now destruct (Qle_bool (gp_threshold self) reward || task_change).
Qed.

Lemma detect_task_change_episodic self l current_rewards :
  td_counter (fst (detect_task_change (set_episodic_rewards self l) current_rewards))
  = td_counter (fst (detect_task_change self current_rewards)).
Proof.
  unfold detect_task_change. simpl.
  destruct (previous_rewards self) as [|r rs]; [reflexivity|].
  unfold crossed_million. simpl.
  destruct (negb _); [|reflexivity].
  now destruct (good_policies self) as [|[[p q] t] g].
Qed.

(** C5, as stated, fails twice.  Two calls at the same [num_timesteps] and
    [n_steps] decide differently when only one of them has previous rewards;
    and an iteration whose episode buffer is empty does not call the
    detector at all, so that nothing is declared where a call would have
    declared a task change. *)
Lemma detector_independence_counterexample :
  let s1 := set_num_timesteps (init_trainer 0%nat 512 (5 # 10) 5 512) 1000312 in
  let s2 := set_previous_rewards s1 [1%Q] in
  num_timesteps s1 = num_timesteps s2 /\ n_steps s1 = n_steps s2 /\
  td_counter (fst (detect_task_change s1 [1%Q])) = td_counter s1 /\
  td_counter (fst (detect_task_change s2 [1%Q])) = (td_counter s2 + 1)%Z /\
  td_counter (fst (detect_task_change s2 [])) = (td_counter s2 + 1)%Z /\
  task_change_detection s2 [] = (s2, None).
Proof. cbv zeta. repeat split. Qed.

(** C5, amended.  The detector is called once in every iteration whose
    episode buffer is not empty, and not at all in the others, which leave
    the trainer as it is.  Whether a call declares a task change depends on
    [num_timesteps], [n_steps] and on whether there are previous rewards:
    two calls that agree on the first two and both have previous rewards
    decide alike, whatever the current returns and the previous rewards
    are; these only change the printed line. *)
Theorem detector_independence_amended :
  forall (s1 s2 : trainer) (c1 c2 : list Q),
    num_timesteps s1 = num_timesteps s2 ->
    n_steps s1 = n_steps s2 ->
    previous_rewards s1 <> [] ->
    previous_rewards s2 <> [] ->
    (td_counter (fst (detect_task_change s1 c1)) - td_counter s1
     = td_counter (fst (detect_task_change s2 c2)) - td_counter s2)%Z /\
    (forall after1 after2 e1 e2,
       detect_task_change s1 c1 = (after1, e1) ->
       detect_task_change s1 c2 = (after2, e2) ->
       e1 = e2 /\
       td_counter after1 = td_counter after2 /\
       anchor_policy after1 = anchor_policy after2 /\
       anchor_policy_timestep after1 = anchor_policy_timestep after2 /\
       good_policies after1 = good_policies after2 /\
       previous_rewards after1 = previous_rewards after2) /\
    task_change_detection s1 [] = (s1, None) /\
    (c1 <> [] ->
     td_counter (fst (task_change_detection s1 c1))
     = td_counter (fst (detect_task_change s1 c1))).
Proof.
  intros s1 s2 c1 c2 Ht Hn Hp1 Hp2. split; [|split; [|split]].
  - rewrite !detect_task_change_counter by assumption.
    unfold crossed_million. rewrite Ht, Hn.
    destruct (negb _); lia.
  - intros after1 after2 e1 e2. unfold detect_task_change.
    destruct (previous_rewards s1) as [|r rs]; [congruence|].
    destruct (crossed_million s1).
    + simpl. destruct (good_policies s1) as [|[[p q] t] g];
        intros [= <- <-] [= <- <-]; repeat split.
    + intros [= <- <-] [= <- <-]; repeat split.
  - reflexivity.
  - intros Hc. destruct c1 as [|c cs]; [congruence|].
    unfold task_change_detection.
    set (l := deque_append _ _ _).
    rewrite <- (detect_task_change_episodic s1 l (c :: cs)).
    destruct (detect_task_change (set_episodic_rewards s1 l) (c :: cs))
      as [s [e|]]; simpl; [reflexivity|].
    now rewrite update_good_policies_td_counter.
Qed.

Lemma detector_independence_amended_witness :
  let s1 := set_previous_rewards
              (set_num_timesteps (init_trainer 0%nat 512 (5 # 10) 5 512) 1000312)
              [1%Q] in
  let s2 := set_previous_rewards s1 [2 # 3; 7 # 2] in
  (td_counter (fst (detect_task_change s1 [])) - td_counter s1
   = td_counter (fst (detect_task_change s2 [9 # 1])) - td_counter s2)%Z.
Proof.
  cbv zeta.
  refine (proj1 (detector_independence_amended _ _ [] [9 # 1] _ _ _ _));
    [reflexivity | reflexivity | discriminate | discriminate].
Defined.

(** ** The sanity checks of the constructor, and advantage normalization *)




(** ** The clipped surrogate *)

Lemma th_clamp_inside x lo hi : (lo <= x <= hi)%R -> th_clamp x lo hi = x.
Proof.
  intros [Hlo Hhi]. unfold th_clamp.
  rewrite Rmax_left by exact Hlo. now rewrite Rmin_left.
Qed.

(** C8.  For a ratio [r] with [|r - 1| <= clip_range] the clipped surrogate
    of a sample is [advantage * r]; for every ratio it is at most
    [advantage * clamp(r, 1 - clip_range, 1 + clip_range)]; and with
    [clip_range = 0.2], [r = 1.5], advantage 1 and no anchor the term of the
    sample in the policy loss, before the mean, is [-1.2]. *)
Theorem clipped_surrogate_band :
  forall (clip_range advantage r : R),
    (Rabs (r - 1) <= clip_range ->
     clipped_surrogate clip_range advantage r = advantage * r)%R /\
    (clipped_surrogate clip_range advantage r
     <= advantage * th_clamp r (1 - clip_range) (1 + clip_range))%R /\
    (forall (Params Obs Noise : Type)
            (forward_log_prob : Params -> list Obs -> Noise -> list R)
            (h : heap Params) (live : loc) (sampled_states : list Obs)
            (anchor_noise curr_noise : Noise) (anchor_pol_kl_coef : R),
       policy_loss_term 0.2 anchor_pol_kl_coef
         (anchor_policy_kl_div forward_log_prob h None live sampled_states
            anchor_noise curr_noise)
         1 1.5 = (- Rmin 1.5 1.2)%R /\
       (- Rmin 1.5 1.2 = - 1.2)%R).
Proof.
  intros eps A r. split; [|split].
  - intros Hband. unfold clipped_surrogate.
    rewrite th_clamp_inside.
    + now apply Rmin_left, Rle_refl.
    + unfold Rabs in Hband. destruct (Rcase_abs (r - 1)); lra.
  - unfold clipped_surrogate. apply Rmin_r.
  - intros Params Obs Noise fwd h live states na nc coef.
    unfold policy_loss_term, clipped_surrogate, th_clamp, anchor_policy_kl_div.
    unfold Rmin, Rmax. repeat (destruct Rle_dec; try lra).
Qed.

Lemma clipped_surrogate_band_witness :
  clipped_surrogate 0.2 1 1.1 = (1 * 1.1)%R.
Proof.
  apply clipped_surrogate_band.
  unfold Rabs. destruct Rcase_abs; lra.
Defined.

(** ** The anchor penalty *)

Lemma th_sum_zeros l : Forall (fun x => x = 0%R) l -> th_sum l = 0%R.
Proof.
  induction 1 as [|x l Hx Hl IH]; [reflexivity|].
  unfold th_sum in *. simpl. rewrite IH, Hx. lra.
Qed.

Lemma map2_cons (A B C : Type) (f : A -> B -> C) a b l1 l2 :
  map2 f (a :: l1) (b :: l2) = f a b :: map2 f l1 l2.
Proof. reflexivity. Qed.

(** The entries averaged by [anchor_policy_kl_div]. *)
Lemma kl_terms anchor_log_probs : forall curr_log_probs,
  map2 Rmult (map exp anchor_log_probs) (map2 Rminus anchor_log_probs curr_log_probs)
  = map2 (fun la lc => exp la * (la - lc))%R anchor_log_probs curr_log_probs.
Proof.
  induction anchor_log_probs as [|a ar IH]; intros [|c cr]; try reflexivity.
  simpl map. rewrite !map2_cons, IH. reflexivity.
Qed.

(** C3.  What the code computes as the anchor penalty.  With no anchor it
    is exactly zero.  With an anchor it is the mean, over the sampled
    states, of [exp(la) * (la - lc)], where [la] is the log-probability
    under the anchor of the one action the anchor's call samples in that
    state, and [lc] the log-probability under the current policy of the one
    action the current policy's call samples, independently, in the same
    state: no sum over the actions is taken.  So for an anchor and a current
    policy with the same parameters, which play two actions with
    probabilities 1/4 and 3/4, one sampled state in which the anchor draws
    the first action and the current policy the second gives the penalty
    [(1/4) * (ln (1/4) - ln (3/4))], which is below [-1/4]: neither close to
    zero nor the value of a divergence. *)
Theorem anchor_penalty_of_sampled_actions :
  (forall (Params Obs Noise : Type)
          (forward_log_prob : Params -> list Obs -> Noise -> list R)
          (h : heap Params) (live : loc) (sampled_states : list Obs)
          (anchor_noise curr_noise : Noise),
     anchor_policy_kl_div forward_log_prob h None live sampled_states
       anchor_noise curr_noise = 0%R /\
     forall a : loc,
       anchor_policy_kl_div forward_log_prob h (Some a) live sampled_states
         anchor_noise curr_noise
       = th_mean
           (map2 (fun la lc => exp la * (la - lc))%R
              (forward_log_prob (h a) sampled_states anchor_noise)
              (forward_log_prob (h live) sampled_states curr_noise))) /\
  (let h : heap (list R) := fun _ => [ln (1 / 4); ln (3 / 4)] in
   let penalty :=
     anchor_policy_kl_div tabular_forward_log_prob h (Some 0%nat) 0%nat [tt]
       [0%nat] [1%nat] in
   penalty = (1 / 4 * (ln (1 / 4) - ln (3 / 4)))%R /\
   (penalty <= - (1 / 4))%R).
Proof.
  split.
  - intros Params Obs Noise fwd h live states na nc. split; [reflexivity|].
    intros a. unfold anchor_policy_kl_div. now rewrite kl_terms.
  - cbv zeta.
    assert (Hv : anchor_policy_kl_div tabular_forward_log_prob
                   (fun _ : loc => [ln (1 / 4); ln (3 / 4)]) (Some 0%nat) 0%nat
                   [tt] [0%nat] [1%nat]
                 = (1 / 4 * (ln (1 / 4) - ln (3 / 4)))%R).
    { unfold anchor_policy_kl_div, tabular_forward_log_prob, th_mean, th_sum,
        map2.
      simpl. rewrite exp_ln by lra. lra. }
    split; [exact Hv|]. rewrite Hv.
    assert (Hd : (ln (1 / 4) - ln (3 / 4) = - ln 3)%R).
    { assert (Hm : ln (3 / 4) = (ln 3 + ln (1 / 4))%R)
        by (rewrite <- ln_mult by lra; f_equal; lra).
      rewrite Hm. lra. }
    assert (H3 : (1 <= ln 3)%R).
    { destruct exp_le_3 as [Hlt | Heq].
      - left. rewrite <- (ln_exp 1) at 1.
        apply ln_increasing; [apply exp_pos | exact Hlt].
      - right. rewrite <- Heq. symmetry. apply ln_exp. }
    rewrite Hd. lra.
Qed.

(** ** The loops of the update engine *)

Section UpdateEngineProperties.

Variables Params Obs Action Noise : Type.
Variable evaluate_actions :
  Params -> list Obs -> list Action -> list R * list R * option (list R).
Variable forward_log_prob : Params -> list Obs -> Noise -> list R.
Variable optimizer_step : (Params -> R) -> R -> Params -> Params.
Variable hp : hyperparams.
Variable clip_range : R.
Variable clip_range_vf : option R.

Lemma l_approx_kl_div_eq (h : heap Params) self (data : rollout_data Obs Action) idx :
  l_approx_kl_div
    (compute_losses evaluate_actions forward_log_prob h self hp clip_range
       clip_range_vf data idx)
  = th_mean
      (map (fun lr => (exp lr - 1) - lr)%R
         (map2 Rminus
            (snd (fst (evaluate_actions (h (policy self)) (observations data)
                         (actions data))))
            (old_log_prob data))).
Proof.
  unfold compute_losses.
  now destruct (evaluate_actions _ _ _) as [[values log_prob] entropy].
Qed.

Lemma exceeds_target_kl_spec target approx_kl_div :
  exceeds_target_kl target approx_kl_div = true <->
  exists t, target = Some t /\ (approx_kl_div > 1.5 * t)%R.
Proof.
  unfold exceeds_target_kl. destruct target as [t|].
  - destruct (Rgt_dec approx_kl_div (1.5 * t)) as [Hgt|Hle]; split.
    + intros _. now exists t.
    + reflexivity.
    + discriminate.
    + intros (t' & [= <-] & Hgt). contradiction.
  - split; [discriminate | intros (t & [=] & _)].
Qed.

Lemma run_minibatches_stop epoch st data idx rest :
  let l := compute_losses evaluate_actions forward_log_prob (store st) (self_ st)
             hp clip_range clip_range_vf data idx in
  exceeds_target_kl (target_kl hp) (l_approx_kl_div l) = true ->
  run_minibatches evaluate_actions forward_log_prob optimizer_step hp clip_range
    clip_range_vf epoch st ((data, idx) :: rest)
  = (if (1 <=? verbose hp)%Z
     then set_self (log_losses st l)
            (print (self_ st) (EarlyStopping epoch (l_approx_kl_div l)))
     else log_losses st l, false).
Proof. intros l H. simpl. fold l. now rewrite H. Qed.

Lemma run_minibatches_step epoch st data idx rest :
  let l := compute_losses evaluate_actions forward_log_prob (store st) (self_ st)
             hp clip_range clip_range_vf data idx in
  exceeds_target_kl (target_kl hp) (l_approx_kl_div l) = false ->
  run_minibatches evaluate_actions forward_log_prob optimizer_step hp clip_range
    clip_range_vf epoch st ((data, idx) :: rest)
  = run_minibatches evaluate_actions forward_log_prob optimizer_step hp clip_range
      clip_range_vf epoch
      (set_store (log_losses st l)
         (optimization_step evaluate_actions forward_log_prob optimizer_step
            (store st) (self_ st) hp clip_range clip_range_vf data idx))
      rest.
Proof. intros l H. simpl. fold l. now rewrite H. Qed.

(** A pass that ends with [continue_training = False] stopped at one of its
    minibatches: the minibatches before it were run to their end, the
    stopping one left the store as it found it, and the ones after it do
    not matter. *)
Lemma run_minibatches_stopped epoch batches : forall st st',
  run_minibatches evaluate_actions forward_log_prob optimizer_step hp clip_range
    clip_range_vf epoch st batches = (st', false) ->
  exists pre data idx post st_pre,
    batches = pre ++ (data, idx) :: post /\
    run_minibatches evaluate_actions forward_log_prob optimizer_step hp clip_range
      clip_range_vf epoch st pre = (st_pre, true) /\
    let l := compute_losses evaluate_actions forward_log_prob (store st_pre)
               (self_ st_pre) hp clip_range clip_range_vf data idx in
    exceeds_target_kl (target_kl hp) (l_approx_kl_div l) = true /\
    store st' = store st_pre /\
    stdout (self_ st') =
      stdout (self_ st_pre) ++
      (if (1 <=? verbose hp)%Z then [EarlyStopping epoch (l_approx_kl_div l)]
       else []) /\
    forall post',
      run_minibatches evaluate_actions forward_log_prob optimizer_step hp
        clip_range clip_range_vf epoch st (pre ++ (data, idx) :: post')
      = (st', false).
Proof.
  induction batches as [|[data idx] rest IH]; intros st st' Hrun.
  - discriminate.
  - destruct (exceeds_target_kl (target_kl hp)
                (l_approx_kl_div
                   (compute_losses evaluate_actions forward_log_prob (store st)
                      (self_ st) hp clip_range clip_range_vf data idx))) eqn:E.
    + exists [], data, idx, rest, st. split; [reflexivity|].
      split; [reflexivity|]. cbv zeta. split; [exact E|].
      rewrite (run_minibatches_stop epoch st data idx rest E) in Hrun.
      injection Hrun as <-.
      split; [|split].
      * now destruct (1 <=? verbose hp)%Z.
      * destruct (1 <=? verbose hp)%Z; simpl; [reflexivity|].
        now rewrite app_nil_r.
      * intros post'. simpl app.
        now rewrite (run_minibatches_stop epoch st data idx post' E).
    + rewrite (run_minibatches_step epoch st data idx rest E) in Hrun.
      destruct (IH _ _ Hrun) as (pre & d & i & post & st_pre & -> & Hpre & Hrest).
      exists ((data, idx) :: pre), d, i, post, st_pre.
      split; [reflexivity|]. split.
      * simpl app. now rewrite (run_minibatches_step epoch st data idx pre E).
      * cbv zeta in *. destruct Hrest as (H1 & H2 & H3 & H4).
        repeat split; try assumption.
        intros post'. simpl app.
        rewrite (run_minibatches_step epoch st data idx _ E). apply H4.
Qed.

Lemma run_epochs_stop rollout_buffer_get st st' epoch later :
  run_minibatches evaluate_actions forward_log_prob optimizer_step hp clip_range
    clip_range_vf epoch (begin_epoch st) (rollout_buffer_get epoch) = (st', false) ->
  run_epochs evaluate_actions forward_log_prob optimizer_step hp clip_range
    clip_range_vf rollout_buffer_get st (epoch :: later) = end_epoch st'.
Proof. intros H. simpl. now rewrite H. Qed.

Lemma run_epochs_continue rollout_buffer_get st st' epoch later :
  run_minibatches evaluate_actions forward_log_prob optimizer_step hp clip_range
    clip_range_vf epoch (begin_epoch st) (rollout_buffer_get epoch) = (st', true) ->
  run_epochs evaluate_actions forward_log_prob optimizer_step hp clip_range
    clip_range_vf rollout_buffer_get st (epoch :: later)
  = run_epochs evaluate_actions forward_log_prob optimizer_step hp clip_range
      clip_range_vf rollout_buffer_get (end_epoch st') later.
Proof. intros H. simpl. now rewrite H. Qed.

End UpdateEngineProperties.

(** C7, as stated, fails: the early-stopping test comes before the
    optimization step.  Here the first minibatch of the first epoch exceeds
    [1.5 * target_kl]; the run stops at once, with one pass counted and the
    losses of the minibatch logged, and the parameters of the policy are the
    ones it started with, not the ones the optimization step on that
    minibatch gives. *)
Lemma early_stop_counterexample :
  let hp := mkHyper 64 10 true 0 0.5 0.5 (Some 0.01%R) 300 0.1 1 in
  let self := init_trainer 0%nat 512 (5 # 10) 5 512 in
  let h : heap (list R) := fun _ => [(-1)%R] in
  let data := mkRollout [tt] [0%nat] [0%R] [(-3)%R] [1%R] [0%R] in
  let rollout_buffer_get := fun _ : nat => [(data, first_state)] in
  let st := run_epochs tabular_evaluate_actions tabular_forward_log_prob
              shift_optimizer_step hp 0.2 None rollout_buffer_get
              (mkLoop self h 0 [] [] [] [] []) (seq 0 (n_epochs hp)) in
  (l_approx_kl_div
     (compute_losses tabular_evaluate_actions tabular_forward_log_prob h self hp
        0.2 None data first_state) > 1.5 * 0.01)%R /\
  store st 0%nat = [(-1)%R] /\
  optimization_step tabular_evaluate_actions tabular_forward_log_prob
    shift_optimizer_step h self hp 0.2 None data first_state 0%nat = [(-1 + 1)%R] /\
  store st 0%nat <>
    optimization_step tabular_evaluate_actions tabular_forward_log_prob
      shift_optimizer_step h self hp 0.2 None data first_state 0%nat /\
  _n_updates st = 1%nat /\
  length (pg_losses st) = 1%nat /\
  (exists kl, stdout (self_ st) = [EarlyStopping 0 kl]).
Proof.
  intros hp self h data rollout_buffer_get st.
  assert (Hkl : (l_approx_kl_div
     (compute_losses tabular_evaluate_actions tabular_forward_log_prob h self hp
        0.2 None data first_state) > 1.5 * 0.01)%R).
  { rewrite l_approx_kl_div_eq.
    unfold tabular_evaluate_actions, th_mean, th_sum, map2, data, h. simpl.
    replace (-1 - -3)%R with (1 + 1)%R by lra. rewrite exp_plus.
    pose proof (exp_ineq1 1 ltac:(lra)). nra. }
  assert (Hex : exceeds_target_kl (target_kl hp) (l_approx_kl_div
     (compute_losses tabular_evaluate_actions tabular_forward_log_prob h self hp
        0.2 None data first_state)) = true).
  { apply exceeds_target_kl_spec. now exists 0.01%R. }
  assert (Hst : st = end_epoch
            (set_self
               (log_losses (mkLoop self h 0 [] [] [] [] [])
                  (compute_losses tabular_evaluate_actions tabular_forward_log_prob
                     h self hp 0.2 None data first_state))
               (print self (EarlyStopping 0
                  (l_approx_kl_div
                     (compute_losses tabular_evaluate_actions
                        tabular_forward_log_prob h self hp 0.2 None data
                        first_state)))))).
  { subst st. change (seq 0 (n_epochs hp)) with (0%nat :: seq 1 9).
    apply run_epochs_stop.
    apply (run_minibatches_stop tabular_evaluate_actions tabular_forward_log_prob
             shift_optimizer_step hp 0.2 None 0
             (begin_epoch (mkLoop self h 0 [] [] [] [] [])) data first_state []).
    exact Hex. }
  split; [exact Hkl|]. rewrite Hst.
  split; [reflexivity|]. split; [reflexivity|].
  split; [intros [= Hsame]; lra|].
  split; [reflexivity|]. split; [reflexivity|].
  eexists. reflexivity.
Qed.

(** C7, amended.  On every minibatch the early-stopping test comes before
    the optimization step.  A minibatch whose approximate KL does not exceed
    [1.5 * target_kl] gets exactly one optimization step, and the pass goes
    on.  A minibatch whose approximate KL exceeds it gets none: the pass ends
    there with the store as that minibatch found it, the epoch index is
    printed when [verbose >= 1], the remaining minibatches are not looked at,
    the pass is counted and no later epoch runs. *)
Theorem early_stop_precedes_optimization_step :
  forall (Params Obs Action Noise : Type)
         (evaluate_actions :
            Params -> list Obs -> list Action -> list R * list R * option (list R))
         (forward_log_prob : Params -> list Obs -> Noise -> list R)
         (optimizer_step : (Params -> R) -> R -> Params -> Params)
         (hp : hyperparams) (clip_range : R) (clip_range_vf : option R)
         (rollout_buffer_get : nat -> list (rollout_data Obs Action * draws Noise))
         (st : loop_state Params) (epoch : nat) (later : list nat)
         (data : rollout_data Obs Action) (idx : draws Noise)
         (rest : list (rollout_data Obs Action * draws Noise)),
    let run := run_minibatches evaluate_actions forward_log_prob optimizer_step
                 hp clip_range clip_range_vf epoch in
    let losses := fun s d i =>
      compute_losses evaluate_actions forward_log_prob (store s) (self_ s) hp
        clip_range clip_range_vf d i in
    (~ (exists t, target_kl hp = Some t
                  /\ (l_approx_kl_div (losses st data idx) > 1.5 * t)%R) ->
     run st ((data, idx) :: rest)
     = run (set_store (log_losses st (losses st data idx))
              (optimization_step evaluate_actions forward_log_prob optimizer_step
                 (store st) (self_ st) hp clip_range clip_range_vf data idx))
         rest) /\
    ((exists t, target_kl hp = Some t
                /\ (l_approx_kl_div (losses st data idx) > 1.5 * t)%R) ->
     exists st',
       run st ((data, idx) :: rest) = (st', false) /\
       store st' = store st /\
       stdout (self_ st') =
         stdout (self_ st) ++
         (if (1 <=? verbose hp)%Z
          then [EarlyStopping epoch (l_approx_kl_div (losses st data idx))]
          else [])) /\
    (forall st',
       run (begin_epoch st) (rollout_buffer_get epoch) = (st', false) ->
       run_epochs evaluate_actions forward_log_prob optimizer_step hp clip_range
         clip_range_vf rollout_buffer_get st (epoch :: later) = end_epoch st' /\
       exists pre d i post st_pre,
         rollout_buffer_get epoch = pre ++ (d, i) :: post /\
         run (begin_epoch st) pre = (st_pre, true) /\
         (exists t, target_kl hp = Some t
                    /\ (l_approx_kl_div (losses st_pre d i) > 1.5 * t)%R) /\
         store st' = store st_pre /\
         stdout (self_ st') =
           stdout (self_ st_pre) ++
           (if (1 <=? verbose hp)%Z
            then [EarlyStopping epoch (l_approx_kl_div (losses st_pre d i))]
            else [])).
Proof.
  intros Params Obs Action Noise eval fwd opt hp clip clipvf get st epoch later
         data idx rest run losses.
  split; [|split].
  - intros Hno. apply run_minibatches_step.
    destruct (exceeds_target_kl _ _) eqn:E; [|reflexivity].
    apply exceeds_target_kl_spec in E. contradiction.
  - intros Hex. apply exceeds_target_kl_spec in Hex.
    eexists. split; [now apply run_minibatches_stop|].
    destruct (1 <=? verbose hp)%Z; simpl; split; try reflexivity.
    now rewrite app_nil_r.
  - intros st' Hrun. split; [now apply run_epochs_stop|].
    destruct (run_minibatches_stopped _ _ _ _ _ _ _ _ _ Hrun)
      as (pre & d & i & post & st_pre & Hb & Hpre & Hex & Hstore & Hout & _).
    exists pre, d, i, post, st_pre. repeat split; try assumption.
    now apply exceeds_target_kl_spec.
Qed.

Lemma early_stop_precedes_optimization_step_witness :
  let hp := mkHyper 64 10 true 0 0.5 0.5 (Some 0.01%R) 300 0.1 1 in
  let self := init_trainer 0%nat 512 (5 # 10) 5 512 in
  let h : heap (list R) := fun _ => [(-1)%R] in
  let data := mkRollout [tt] [0%nat] [0%R] [(-3)%R] [1%R] [0%R] in
  exists st',
    run_minibatches tabular_evaluate_actions tabular_forward_log_prob
      shift_optimizer_step hp 0.2 None 0 (mkLoop self h 0 [] [] [] [] [])
      [(data, first_state)] = (st', false) /\
    store st' = h.
Proof.
  intros hp self h data.
  destruct (early_stop_precedes_optimization_step tabular_evaluate_actions
              tabular_forward_log_prob shift_optimizer_step hp 0.2 None
              (fun _ : nat => [(data, first_state)])
              (mkLoop self h 0 [] [] [] [] []) 0 [] data first_state [])
    as (_ & Hstop & _).
  destruct Hstop as (st' & Hrun & Hstore & _).
  - exists 0.01%R. split; [reflexivity|].
    rewrite l_approx_kl_div_eq.
    unfold tabular_evaluate_actions, th_mean, th_sum, map2, data, h. simpl.
    replace (-1 - -3)%R with (1 + 1)%R by lra. rewrite exp_plus.
    pose proof (exp_ineq1 1 ltac:(lra)). nra.
  - exists st'. split; [exact Hrun | exact Hstore].
Defined.

(** ** What the archive and the anchor hold *)

Lemma slice_to_incl (A : Type) (l : list A) k x : In x (slice_to l k) -> In x l.
Proof. unfold slice_to. destruct (0 <=? k)%Z; apply In_firstn. Qed.

Lemma update_good_policies_policy self p reward task_change :
  policy (update_good_policies self p reward task_change) = policy self.
Proof.
  unfold update_good_policies.
  now destruct (Qle_bool (gp_threshold self) reward || task_change).
Qed.

Lemma update_good_policies_anchor self p reward task_change :
  anchor_policy (update_good_policies self p reward task_change)
  = anchor_policy self.
Proof.
  unfold update_good_policies.
  now destruct (Qle_bool (gp_threshold self) reward || task_change).
Qed.

Lemma update_good_policies_aliases self reward task_change :
  aliases_live_policy self ->
  aliases_live_policy (update_good_policies self (policy self) reward task_change).
Proof.
  intros [Harch Hanchor]. unfold aliases_live_policy.
  rewrite update_good_policies_policy, update_good_policies_anchor.
  split; [|exact Hanchor].
  unfold update_good_policies.
  destruct (Qle_bool (gp_threshold self) reward || task_change); [|exact Harch].
  simpl. rewrite Forall_forall in *. intros record Hin.
  apply slice_to_incl in Hin.
  apply (Permutation_in _ (sort_by_timestep_desc_perm _)) in Hin.
  apply in_app_or in Hin as [Hin | [<- | []]]; [now apply Harch | reflexivity].
Qed.

Lemma detect_task_change_aliases self current_rewards :
  aliases_live_policy self ->
  aliases_live_policy (fst (detect_task_change self current_rewards)) /\
  policy (fst (detect_task_change self current_rewards)) = policy self.
Proof.
  intros [Harch Hanchor]. unfold detect_task_change.
  destruct (previous_rewards self) as [|r rs]; [now split|].
  destruct (crossed_million self); [|now split].
  simpl. destruct (good_policies self) as [|[[p q] t] g] eqn:E.
  - split; [|reflexivity]. split; simpl; [rewrite E; constructor | exact Hanchor].
  - split; [|reflexivity]. split; simpl; [now rewrite E|].
    right. inversion Harch as [|? ? Hp _]; subst. simpl in Hp. now rewrite Hp.
Qed.

Lemma task_change_detection_aliases self ep_info_buffer :
  aliases_live_policy self ->
  aliases_live_policy (fst (task_change_detection self ep_info_buffer)) /\
  policy (fst (task_change_detection self ep_info_buffer)) = policy self.
Proof.
  intros Ha. unfold task_change_detection.
  destruct ep_info_buffer as [|r rs]; [now split|].
  set (s := set_episodic_rewards self _).
  assert (Hs : aliases_live_policy s) by exact Ha.
  destruct (detect_task_change_aliases (r :: rs) Hs) as [Hd Hp].
  destruct (detect_task_change s (r :: rs)) as [s' [e|]]; simpl in *;
    [now split|].
  split.
  - apply (@update_good_policies_aliases (set_previous_rewards s' (r :: rs))).
    exact Hd.
  - now rewrite update_good_policies_policy.
Qed.

Section LoopsKeepTheTrainer.

Variables Params Obs Action Noise : Type.
Variable evaluate_actions :
  Params -> list Obs -> list Action -> list R * list R * option (list R).
Variable forward_log_prob : Params -> list Obs -> Noise -> list R.
Variable optimizer_step : (Params -> R) -> R -> Params -> Params.
Variable hp : hyperparams.
Variable clip_range : R.
Variable clip_range_vf : option R.

(** The loops only print: the references the trainer holds stay put. *)
Lemma run_minibatches_references epoch batches : forall st,
  same_references (self_ st)
    (self_ (fst (run_minibatches evaluate_actions forward_log_prob optimizer_step
                   hp clip_range clip_range_vf epoch st batches))).
Proof.
  induction batches as [|[data idx] rest IH]; intros st; simpl.
  - now repeat split.
  - destruct (exceeds_target_kl _ _).
    + destruct (1 <=? verbose hp)%Z; now repeat split.
    + apply (IH (set_store (log_losses st _) _)).
Qed.

Lemma run_epochs_references rollout_buffer_get epochs : forall st,
  same_references (self_ st)
    (self_ (run_epochs evaluate_actions forward_log_prob optimizer_step hp
              clip_range clip_range_vf rollout_buffer_get st epochs)).
Proof.
  induction epochs as [|epoch later IH]; intros st; simpl.
  - now repeat split.
  - pose proof (run_minibatches_references epoch (rollout_buffer_get epoch)
                  (begin_epoch st)) as Hm.
    destruct (run_minibatches _ _ _ _ _ _ _ _ _) as [st1 continue_training].
    simpl in Hm. destruct continue_training.
    + specialize (IH (end_epoch st1)). simpl in IH.
      destruct IH as (H1 & H2 & H3), Hm as (M1 & M2 & M3).
      repeat split; congruence.
    + exact Hm.
Qed.

End LoopsKeepTheTrainer.

Lemma same_references_aliases s s' :
  same_references s s' -> aliases_live_policy s -> aliases_live_policy s'.
Proof.
  intros (Hp & Hg & Ha) [H1 H2]. unfold aliases_live_policy.
  now rewrite Hp, Hg, Ha.
Qed.

Lemma heap_set_same (Params : Type) (h : heap Params) l p : heap_set h l p l = p.
Proof. unfold heap_set. now rewrite Nat.eqb_refl. Qed.

(** C1.  What the code keeps in the archive and as the anchor is the
    reference of the live policy, not a copy: this holds initially and after
    every call of [train].  An optimization step therefore shows through
    every archived record and through the anchor, whose parameters are the
    updated parameters of the live policy. *)
Theorem snapshots_alias_live_policy :
  forall (Params Obs Action Noise : Type)
         (evaluate_actions :
            Params -> list Obs -> list Action -> list R * list R * option (list R))
         (forward_log_prob : Params -> list Obs -> Noise -> list R)
         (optimizer_step : (Params -> R) -> R -> Params -> Params)
         (self : trainer) (h : heap Params) (n_updates : nat)
         (hp : hyperparams) (clip_range : R) (clip_range_vf : option R)
         (rollout_buffer_get : nat -> list (rollout_data Obs Action * draws Noise))
         (ep_info_buffer : list Q),
    aliases_live_policy self ->
    let after :=
      self_ (fst (train evaluate_actions forward_log_prob optimizer_step self h
                    n_updates hp clip_range clip_range_vf rollout_buffer_get
                    ep_info_buffer)) in
    aliases_live_policy after /\
    policy after = policy self /\
    forall l : loc,
      (exists reward t, In (l, reward, t) (good_policies after))
      \/ anchor_policy after = Some l ->
      forall (h' : heap Params) (data : rollout_data Obs Action) (idx : draws Noise),
        optimization_step evaluate_actions forward_log_prob optimizer_step h'
          after hp clip_range clip_range_vf data idx l
        = optimizer_step
            (fun p =>
               l_loss (compute_losses evaluate_actions forward_log_prob
                         (heap_set h' (policy after) p) after hp clip_range
                         clip_range_vf data idx))
            (max_grad_norm hp) (h' (policy after)).
Proof.
  intros Params Obs Action Noise eval fwd opt self h n hp clip clipvf get buf Ha after.
  assert (Hafter : aliases_live_policy after /\ policy after = policy self).
  { subst after. unfold train.
    set (st := run_epochs _ _ _ _ _ _ _ _ _).
    assert (Hst : same_references self (self_ st))
      by apply (run_epochs_references eval fwd opt hp clip clipvf get
                  (seq 0 (n_epochs hp)) (mkLoop self h n [] [] [] [] [])).
    pose proof (same_references_aliases Hst Ha) as Hs.
    destruct (task_change_detection_aliases buf Hs) as [H1 H2].
    destruct (task_change_detection (self_ st) buf) as [s e]. simpl in *.
    split; [exact H1|]. destruct Hst as [Hp _]. congruence. }
  destruct Hafter as [Halias Hpol]. split; [exact Halias|]. split; [exact Hpol|].
  intros l Hl h' data idx.
  assert (El : l = policy after).
  { destruct Halias as [Harch Hanchor].
    destruct Hl as [(reward & t & Hin) | Hanc].
    - rewrite Forall_forall in Harch. exact (Harch _ Hin).
    - destruct Hanchor as [Hn | Hs]; congruence. }
  subst l. unfold optimization_step. apply heap_set_same.
Qed.

Lemma snapshots_alias_live_policy_witness :
  let hp := mkHyper 64 1 true 0 0.5 0.5 None 300 0.1 0 in
  let self := set_num_timesteps (init_trainer 0%nat 512 (5 # 10) 5 512) 512 in
  let h : heap (list R) := fun _ => [(-1)%R] in
  let data := mkRollout [tt] [0%nat] [0%R] [(-3)%R] [1%R] [0%R] in
  let first := fst (train tabular_evaluate_actions tabular_forward_log_prob
                      shift_optimizer_step self h 0 hp 0.2 None
                      (fun _ => [(data, first_state)]) [6 # 10]) in
  good_policies (self_ first) = [(0%nat, 6 # 10, 512%Z)] /\
  store first 0%nat = [(-1 + 1)%R] /\
  optimization_step tabular_evaluate_actions tabular_forward_log_prob
    shift_optimizer_step (store first) (self_ first) hp 0.2 None data first_state
    0%nat = [(-1 + 1 + 1)%R].
Proof.
  intros hp self h data first.
  assert (Hg : good_policies (self_ first) = [(0%nat, 6 # 10, 512%Z)])
    by reflexivity.
  split; [exact Hg|]. split; [reflexivity|].
  destruct (@snapshots_alias_live_policy (list R) unit nat (list nat)
              tabular_evaluate_actions
              tabular_forward_log_prob shift_optimizer_step self h 0 hp 0.2 None
              (fun _ => [(data, first_state)]) [6 # 10]) as (_ & _ & Hstep).
  - split; [constructor | now left].
  - fold first in Hstep. rewrite (Hstep 0%nat).
    + reflexivity.
    + left. exists (6 # 10), 512%Z. rewrite Hg. now left.
Defined.

(** * Further properties of the code *)

(** ** The boundary test of the detector *)

Lemma floors_differ_iff (a b : Z) :
  (b <= a)%Z ->
  (a / 1000000 <> b / 1000000)%Z <->
  exists k, (b < k * 1000000 <= a)%Z.
Proof.
  intros Hba. split.
  - intros Hne. exists (a / 1000000)%Z.
    assert (Hle : (b / 1000000 <= a / 1000000)%Z)
      by (apply Z.div_le_mono; lia).
    pose proof (Z.div_mod a 1000000 ltac:(lia)) as Ha.
    pose proof (Z.mod_pos_bound a 1000000 ltac:(lia)) as Hra.
    pose proof (Z.div_mod b 1000000 ltac:(lia)) as Hb.
    pose proof (Z.mod_pos_bound b 1000000 ltac:(lia)) as Hrb.
    lia.
  - intros (k & Hlo & Hhi).
    assert (k <= a / 1000000)%Z by (apply Z.div_le_lower_bound; lia).
    assert (b / 1000000 < k)%Z by (apply Z.div_lt_upper_bound; lia).
    lia.
Qed.

(** X1.  With a non-negative [n_steps] and previous rewards at hand, the
    detector counts a task change exactly when a multiple of one million
    lies in the steps of this iteration, the interval from
    [num_timesteps - n_steps], excluded, to [num_timesteps], included; with
    [n_steps = 0] it never does. *)
Theorem detector_counts_million_crossings :
  forall (self : trainer) (current_rewards : list Q),
    previous_rewards self <> [] ->
    (0 <= n_steps self)%Z ->
    let after := fst (detect_task_change self current_rewards) in
    (td_counter after = (td_counter self + 1)%Z <->
     exists k, (num_timesteps self - n_steps self < k * 1000000
                <= num_timesteps self)%Z) /\
    (n_steps self = 0%Z -> after = self).
Proof.
  intros self current_rewards Hprev Hn after. subst after.
  rewrite (detect_task_change_counter self current_rewards Hprev).
  pose proof (crossed_million_spec self) as Hc.
  pose proof (@floors_differ_iff (num_timesteps self)
                (num_timesteps self - n_steps self) ltac:(lia)) as Hf.
  split.
  - destruct (crossed_million self); split; intros H.
    + apply Hf, Hc. reflexivity.
    + reflexivity.
    + lia.
    + apply Hf, Hc in H. discriminate.
  - intros H0. rewrite detect_task_change_quiet; [reflexivity|].
    unfold crossed_million. rewrite H0, Z.sub_0_r, Z.eqb_refl. reflexivity.
Qed.

Lemma detector_counts_million_crossings_witness :
  td_counter (fst (detect_task_change
     (set_previous_rewards
        (set_num_timesteps (init_trainer 0%nat 512 (5 # 10) 5 512) 3000100)
        [1%Q])
     [])) = 1%Z.
Proof.
  apply detector_counts_million_crossings;
    [discriminate | simpl; lia | exists 3%Z; simpl; lia].
Defined.

(** X2.  When the detector declares a task change on a non-empty archive
    that is sorted by timestep, largest first, it does not raise, the anchor
    becomes the policy of the first record, the anchor timestep is the
    largest timestep of the archive, and the archive and the cached rewards
    are left as they are. *)
Theorem detector_installs_newest_record :
  forall (self : trainer) (current_rewards : list Q),
    previous_rewards self <> [] ->
    crossed_million self = true ->
    good_policies self <> [] ->
    StronglySorted newer_first (good_policies self) ->
    let result := detect_task_change self current_rewards in
    snd result = None /\
    (exists p reward,
       hd_error (good_policies self)
         = Some (p, reward, anchor_policy_timestep (fst result)) /\
       anchor_policy (fst result) = Some p) /\
    Forall (fun record => (timestep_of record
                           <= anchor_policy_timestep (fst result))%Z)
      (good_policies self) /\
    td_counter (fst result) = (td_counter self + 1)%Z /\
    good_policies (fst result) = good_policies self /\
    previous_rewards (fst result) = previous_rewards self.
Proof.
  intros self current_rewards Hprev Hcross Hne Hsorted result. subst result.
  unfold detect_task_change. rewrite Hcross.
  destruct (previous_rewards self) as [|r rs] eqn:Ep; [congruence|].
  simpl. destruct (good_policies self) as [|[[p q] t] g] eqn:Eg; [congruence|].
  simpl. rewrite Eg, Ep. repeat split.
  - exists p, q. split; reflexivity.
  - inversion Hsorted as [|? ? _ Hall]; subst.
    constructor; [unfold timestep_of; simpl; lia|].
    rewrite Forall_forall in *. intros x Hx. exact (Hall x Hx).
Qed.

Lemma detector_installs_newest_record_witness :
  let self :=
    set_good_policies
      (set_previous_rewards
         (set_num_timesteps (init_trainer 0%nat 512 (5 # 10) 5 512) 1000312)
         [1%Q])
      [(0%nat, 9 # 10, 400%Z); (0%nat, 7 # 10, 300%Z)] in
  snd (detect_task_change self [1%Q]) = None /\
  Forall (fun record =>
            (timestep_of record
             <= anchor_policy_timestep (fst (detect_task_change self [1%Q])))%Z)
    (good_policies self).
Proof.
  intros self.
  destruct (@detector_installs_newest_record self [1%Q]) as (H1 & _ & H3 & _).
  - discriminate.
  - reflexivity.
  - discriminate.
  - repeat constructor; unfold newer_first, timestep_of; simpl; lia.
  - split; [exact H1 | exact H3].
Defined.

(** ** When [train] raises *)



Section LoopsOnlyPrint.

Variables Params Obs Action Noise : Type.
Variable evaluate_actions :
  Params -> list Obs -> list Action -> list R * list R * option (list R).
Variable forward_log_prob : Params -> list Obs -> Noise -> list R.
Variable optimizer_step : (Params -> R) -> R -> Params -> Params.
Variable hp : hyperparams.
Variable clip_range : R.
Variable clip_range_vf : option R.





End LoopsOnlyPrint.


(** ** Runs of the archive *)

Lemma insert_desc_newest x l :
  Forall (newer_first x) l -> insert_desc x l = x :: l.
Proof.
  intros H. destruct l as [|y l]; [reflexivity|].
  inversion H as [|? ? Hy _]; subst. simpl.
  unfold newer_first in Hy. apply Z.leb_le in Hy. now rewrite Hy.
Qed.

Lemma sort_appended_newer archive x :
  StronglySorted newer_first archive ->
  Forall (fun record => (timestep_of record < timestep_of x)%Z) archive ->
  sort_by_timestep_desc (archive ++ [x]) = x :: archive.
Proof.
  induction 1 as [|a archive Hs IH Ha]; intros Hold; [reflexivity|].
  inversion Hold as [|? ? Hlt Hold']; subst.
  unfold sort_by_timestep_desc in *. simpl. rewrite (IH Hold'). simpl.
  destruct (Z.leb_spec (timestep_of x) (timestep_of a)) as [Hle|_]; [lia|].
  now rewrite insert_desc_newest.
Qed.

Lemma firstn_app_firstn (A : Type) n (l m : list A) :
  firstn n (l ++ firstn n m) = firstn n (l ++ m).
Proof.
  rewrite !firstn_app, firstn_firstn. f_equal. f_equal. lia.
Qed.

Lemma update_good_policies_threshold self p reward task_change :
  gp_threshold (update_good_policies self p reward task_change)
  = gp_threshold self.
Proof.
  unfold update_good_policies.
  now destruct (Qle_bool (gp_threshold self) reward || task_change).
Qed.

Lemma consider_all_cons self call calls :
  consider_all self (call :: calls)
  = consider_all
      (update_good_policies (set_num_timesteps self (snd call)) (policy self)
         (fst call) false)
      calls.
Proof. reflexivity. Qed.

Lemma consider_all_recent calls : forall self,
  (0 <= gp_k self)%Z ->
  (Z.of_nat (length (good_policies self)) <= gp_k self)%Z ->
  StronglySorted newer_first (good_policies self) ->
  StronglySorted Z.lt (map snd calls) ->
  Forall (fun record => Forall (fun call => (timestep_of record < snd call)%Z) calls)
    (good_policies self) ->
  good_policies (consider_all self calls)
  = slice_to (rev (accepted_records (policy self) (gp_threshold self) calls)
              ++ good_policies self) (gp_k self).
Proof.
  induction calls as [|[q t] calls IH]; intros self Hk Hlen Hsorted Hinc Hold.
  - simpl. unfold slice_to. destruct (Z.leb_spec 0 (gp_k self)); [|lia].
    symmetry. apply firstn_all2. lia.
  - rewrite consider_all_cons. simpl fst. simpl snd.
    inversion Hinc as [|? ? Hinc' Ht]; subst.
    assert (Holdt : Forall (fun record => (timestep_of record < t)%Z)
                      (good_policies self)).
    { rewrite Forall_forall in *. intros r Hr.
      specialize (Hold r Hr). now inversion Hold. }
    assert (Holdrest : Forall (fun record =>
                Forall (fun call => (timestep_of record < snd call)%Z) calls)
              (good_policies self)).
    { rewrite Forall_forall in *. intros r Hr.
      specialize (Hold r Hr). now inversion Hold. }
    set (s0 := set_num_timesteps self t).
    set (s1 := update_good_policies s0 (policy self) q false).
    assert (Hk1 : gp_k s1 = gp_k self)
      by (unfold s1; now rewrite update_good_policies_gp_k).
    assert (Hp1 : policy s1 = policy self)
      by (unfold s1; now rewrite update_good_policies_policy).
    assert (Ht1 : gp_threshold s1 = gp_threshold self)
      by (unfold s1; now rewrite update_good_policies_threshold).
    unfold accepted_records. simpl filter.
    destruct (Qle_bool (gp_threshold self) q) eqn:E.
    + assert (Hg : good_policies s1
                = slice_to ((policy self, q, t) :: good_policies self) (gp_k self)).
      { unfold s1, update_good_policies. simpl gp_threshold. rewrite E. simpl.
        now rewrite sort_appended_newer. }
      assert (Hall : StronglySorted newer_first
                       ((policy self, q, t) :: good_policies self)).
      { constructor; [exact Hsorted|].
        rewrite Forall_forall in *. intros r Hr. specialize (Holdt r Hr).
        unfold newer_first, timestep_of in *. simpl. lia. }
      rewrite IH; rewrite ?Hk1, ?Hp1, ?Ht1, ?Hg; try assumption.
      * unfold slice_to. destruct (Z.leb_spec 0 (gp_k self)); [|lia].
        rewrite firstn_app_firstn. f_equal. simpl map. simpl rev.
        now rewrite <- app_assoc.
      * now apply slice_to_length.
      * now apply slice_to_sorted.
      * rewrite Forall_forall in *. intros r Hr.
        apply slice_to_incl in Hr. destruct Hr as [<- | Hr].
        -- rewrite Forall_forall. intros c Hc.
           apply (Ht (snd c)). now apply in_map.
        -- now apply Holdrest.
    + assert (Hs1 : s1 = s0).
      { unfold s1, update_good_policies. simpl gp_threshold. now rewrite E. }
      rewrite IH; rewrite ?Hk1, ?Hp1, ?Ht1, ?Hs1; try assumption.
      reflexivity.
Qed.

(** X4.  When the step counter grows from one call to the next, the archive
    started empty holds the [gp_k] most recent accepted records, the newest
    first: a record is only ever replaced by a newer one, whatever the
    rewards are. *)
Theorem archive_keeps_most_recent :
  forall (self : trainer) (calls : list (Q * Z)),
    (0 <= gp_k self)%Z ->
    StronglySorted Z.lt (map snd calls) ->
    good_policies (consider_all (set_good_policies self []) calls)
    = firstn (Z.to_nat (gp_k self))
        (rev (accepted_records (policy self) (gp_threshold self) calls)).
Proof.
  intros self calls Hk Hinc.
  rewrite consider_all_recent; simpl; try assumption; try lia; try constructor.
  rewrite app_nil_r. unfold slice_to.
  now destruct (Z.leb_spec 0 (gp_k self)); [|lia].
Qed.

Lemma archive_keeps_most_recent_witness :
  good_policies
    (consider_all (set_good_policies (init_trainer 7%nat 512 (5 # 10) 2 512) [])
       [(9 # 10, 100%Z); (6 # 10, 200%Z); (1 # 10, 300%Z); (5 # 10, 400%Z)])
  = [(7%nat, 5 # 10, 400%Z); (7%nat, 6 # 10, 200%Z)].
Proof.
  rewrite archive_keeps_most_recent.
  - reflexivity.
  - simpl. lia.
  - simpl. repeat constructor.
Defined.

Lemma update_good_policies_sorted self p reward task_change :
  StronglySorted newer_first (good_policies self) ->
  StronglySorted newer_first
    (good_policies (update_good_policies self p reward task_change)).
Proof.
  intros Hs. unfold update_good_policies.
  destruct (Qle_bool (gp_threshold self) reward || task_change); [|exact Hs].
  simpl. apply slice_to_sorted, sort_by_timestep_desc_sorted.
Qed.

Lemma update_good_policies_incl self p reward record :
  In record (good_policies (update_good_policies self p reward false)) ->
  In record (good_policies self) \/
  (Qle_bool (gp_threshold self) reward = true /\
   record = (p, reward, num_timesteps self)).
Proof.
  unfold update_good_policies. rewrite orb_false_r.
  destruct (Qle_bool (gp_threshold self) reward); [|now left].
  simpl. intros Hin. apply slice_to_incl in Hin.
  apply (Permutation_in _ (sort_by_timestep_desc_perm _)) in Hin.
  apply in_app_or in Hin as [Hin | [<- | []]]; [now left | now right].
Qed.

Lemma consider_all_invariant calls : forall self,
  StronglySorted newer_first (good_policies self) ->
  StronglySorted newer_first (good_policies (consider_all self calls)) /\
  forall record,
    In record (good_policies (consider_all self calls)) ->
    In record (good_policies self) \/
    In record (accepted_records (policy self) (gp_threshold self) calls).
Proof.
  induction calls as [|[q t] calls IH]; intros self Hs.
  - split; [exact Hs | now left].
  - rewrite consider_all_cons. simpl fst. simpl snd.
    set (s1 := update_good_policies (set_num_timesteps self t) (policy self) q false).
    assert (Hs1 : StronglySorted newer_first (good_policies s1))
      by now apply update_good_policies_sorted.
    destruct (IH s1 Hs1) as [Hsorted Hincl]. split; [exact Hsorted|].
    intros record Hin. apply Hincl in Hin.
    unfold s1 in Hin.
    rewrite update_good_policies_policy, update_good_policies_threshold in Hin.
    simpl policy in Hin. simpl gp_threshold in Hin.
    unfold accepted_records. simpl filter.
    destruct Hin as [Hin | Hin].
    + apply update_good_policies_incl in Hin as [Hin | [E ->]]; [now left|].
      right. simpl gp_threshold in E. rewrite E. now left.
    + right. destruct (Qle_bool (gp_threshold self) q); [right|]; exact Hin.
Qed.

(** X5.  Whatever the rewards and the timesteps of the calls, the archive
    started empty is sorted by timestep, largest first, after every run, and
    holds only records of calls whose reward reached the threshold, each
    with the reference of the live policy. *)
Theorem archive_sorted_and_accepted_only :
  forall (self : trainer) (calls : list (Q * Z)),
    let archive :=
      good_policies (consider_all (set_good_policies self []) calls) in
    StronglySorted newer_first archive /\
    Forall (fun record =>
              fst (fst record) = policy self /\
              exists call, In call calls /\
                           (gp_threshold self <= fst call)%Q /\
                           record = (policy self, fst call, snd call))
      archive.
Proof.
  intros self calls archive.
  destruct (consider_all_invariant calls (set_good_policies self []))
    as [Hsorted Hincl]; [constructor|].
  split; [exact Hsorted|].
  apply Forall_forall. intros record Hin.
  apply Hincl in Hin as [[] | Hin].
  unfold accepted_records in Hin. simpl in Hin.
  apply in_map_iff in Hin as (call & <- & Hc).
  apply filter_In in Hc as [Hc Hq]. apply Qle_bool_iff in Hq.
  split; [reflexivity|]. now exists call.
Qed.

(** X6.  With a capacity [gp_k] of zero or less the archive started empty
    stays empty, whatever is offered to it: every record is dropped by the
    slice that follows its admission. *)
Theorem archive_without_capacity_stays_empty :
  forall (self : trainer) (calls : list (Q * Z)),
    (gp_k self <= 0)%Z ->
    good_policies self = [] ->
    good_policies (consider_all self calls) = [].
Proof.
  intros self calls. revert self.
  induction calls as [|[q t] calls IH]; intros self Hk He; [exact He|].
  rewrite consider_all_cons. apply IH.
  - now rewrite update_good_policies_gp_k.
  - unfold update_good_policies. simpl. rewrite He.
    destruct (Qle_bool (gp_threshold self) q || false); [|exact He].
    simpl. unfold slice_to.
    destruct (Z.leb_spec 0 (gp_k self)).
    + replace (gp_k self) with 0%Z by lia. reflexivity.
    + simpl length. replace (Z.to_nat (Z.of_nat 1 + gp_k self)) with 0%nat by lia.
      reflexivity.
Qed.

Lemma archive_without_capacity_stays_empty_witness :
  good_policies
    (consider_all (init_trainer 0%nat 512 (5 # 10) (-1) 512)
       [(9 # 10, 100%Z); (8 # 10, 200%Z)]) = [].
Proof.
  apply archive_without_capacity_stays_empty; [simpl; lia | reflexivity].
Defined.

(** ** Once the archive holds a record *)







(** ** The reward caches of the task-change block *)

Lemma deque_append_length maxlen d x :
  (0 <= maxlen)%Z ->
  (Z.of_nat (length d) <= maxlen)%Z ->
  (Z.of_nat (length (deque_append maxlen d x)) <= maxlen)%Z.
Proof.
  intros Hm Hd. unfold deque_append.
  destruct (Z.leb_spec maxlen 0); [simpl; lia|].
  destruct (Z.ltb_spec (Z.of_nat (length d)) maxlen);
    rewrite length_app; simpl; [lia|].
  destruct d; simpl in *; lia.
Qed.

Lemma deque_append_last maxlen d x :
  (0 < maxlen)%Z -> last (deque_append maxlen d x) 0%Q = x.
Proof.
  intros Hm. unfold deque_append.
  destruct (Z.leb_spec maxlen 0); [lia|].
  destruct (Z.ltb_spec (Z.of_nat (length d)) maxlen); apply last_last.
Qed.

Lemma detect_task_change_caches self current_rewards :
  let after := fst (detect_task_change self current_rewards) in
  previous_rewards after = previous_rewards self /\
  episodic_rewards after = episodic_rewards self /\
  _reward_grad_window after = _reward_grad_window self.
Proof.
  unfold detect_task_change.
  destruct (previous_rewards self) as [|r rs] eqn:Ep; [now repeat split|].
  destruct (crossed_million self); [|now repeat split].
  simpl.
  destruct (good_policies self) as [|[[p q] t] g]; simpl; now repeat split.
Qed.

Lemma update_good_policies_caches self p reward task_change :
  let after := update_good_policies self p reward task_change in
  previous_rewards after = previous_rewards self /\
  episodic_rewards after = episodic_rewards self /\
  _reward_grad_window after = _reward_grad_window self.
Proof.
  unfold update_good_policies.
  destruct (Qle_bool (gp_threshold self) reward || task_change);
    now repeat split.
Qed.

(** X8.  The task-change block keeps the window of mean rewards within its
    size: a window that holds at most [_reward_grad_window] means before the
    block holds at most as many after it, whether the block raises or not,
    and when the episode buffer is not empty and the size is positive its
    last mean is the mean of the returns of this iteration. *)
Theorem episodic_rewards_bounded :
  forall (self : trainer) (ep_info_buffer : list Q),
    (0 <= _reward_grad_window self)%Z ->
    (Z.of_nat (length (episodic_rewards self)) <= _reward_grad_window self)%Z ->
    let after := fst (task_change_detection self ep_info_buffer) in
    _reward_grad_window after = _reward_grad_window self /\
    (Z.of_nat (length (episodic_rewards after)) <= _reward_grad_window self)%Z /\
    (ep_info_buffer <> [] -> (0 < _reward_grad_window self)%Z ->
     last (episodic_rewards after) 0%Q = np_mean ep_info_buffer).
Proof.
  intros self buf Hw Hlen after. subst after. unfold task_change_detection.
  destruct buf as [|r rs]; [simpl; repeat split; [exact Hlen | congruence]|].
  set (s := set_episodic_rewards self _).
  destruct (detect_task_change_caches s (r :: rs)) as (_ & He & Hwin).
  assert (Hfinal : forall s',
            episodic_rewards s' = episodic_rewards s ->
            _reward_grad_window s' = _reward_grad_window s ->
            _reward_grad_window s' = _reward_grad_window self /\
            (Z.of_nat (length (episodic_rewards s')) <= _reward_grad_window self)%Z /\
            (r :: rs <> [] -> (0 < _reward_grad_window self)%Z ->
             last (episodic_rewards s') 0%Q = np_mean (r :: rs))).
  { intros s' E1 E2. rewrite E1, E2. unfold s. simpl.
    repeat split.
    - now apply deque_append_length.
    - intros _ Hpos. now apply deque_append_last. }
  destruct (detect_task_change s (r :: rs)) as [s' [e|]]; simpl in *.
  - now apply Hfinal.
  - destruct (update_good_policies_caches (set_previous_rewards s' (r :: rs))
                (policy s') (np_mean (r :: rs)) false) as (_ & U1 & U2).
    apply Hfinal; simpl in *; congruence.
Qed.

Lemma episodic_rewards_bounded_witness :
  let self := init_trainer 0%nat 512 (5 # 10) 5 512 in
  (Z.of_nat (length (episodic_rewards
      (fst (task_change_detection self [1 # 2; 3 # 2])))) <= 196)%Z.
Proof.
  intros self.
  destruct (@episodic_rewards_bounded self [1 # 2; 3 # 2]) as (_ & H & _).
  - vm_compute. discriminate.
  - vm_compute. discriminate.
  - exact H.
Defined.

(** X9.  An iteration whose episode buffer is not empty and whose detector
    call does not raise leaves exactly the returns of that iteration as the
    previous rewards; an iteration with an empty buffer leaves the trainer as
    it is.  So the detector is skipped for want of previous rewards only
    until the first iteration that saw an episode end. *)
Theorem previous_rewards_cached :
  forall (self : trainer) (ep_info_buffer : list Q),
    (ep_info_buffer = [] ->
     task_change_detection self ep_info_buffer = (self, None)) /\
    (ep_info_buffer <> [] ->
     snd (task_change_detection self ep_info_buffer) = None ->
     previous_rewards (fst (task_change_detection self ep_info_buffer))
       = ep_info_buffer /\
     previous_rewards (fst (task_change_detection self ep_info_buffer)) <> []).
Proof.
  intros self buf. split; [now intros ->|].
  intros Hne. unfold task_change_detection.
  destruct buf as [|r rs]; [congruence|].
  set (s := set_episodic_rewards self _).
  destruct (detect_task_change s (r :: rs)) as [s' [e|]]; simpl;
    [discriminate|].
  intros _.
  destruct (update_good_policies_caches (set_previous_rewards s' (r :: rs))
              (policy s') (np_mean (r :: rs)) false) as (U & _).
  simpl in U. rewrite U. split; [reflexivity | discriminate].
Qed.

Lemma previous_rewards_cached_witness :
  previous_rewards
    (fst (task_change_detection (init_trainer 0%nat 512 (5 # 10) 5 512)
            [1 # 2; 3 # 2])) = [1 # 2; 3 # 2].
Proof.
  apply previous_rewards_cached; [discriminate | reflexivity].
Defined.

(** ** The size of the reward window *)

(** X10.  The constructor sizes the reward window from the episode length:
    a positive length gives [100000 // eps_length + 1], at least one; a zero
    length raises [ZeroDivisionError]; a length between -100000 and 0 gives
    a negative size, which [deque] refuses with [ValueError]; a length of
    -100000 or less gives the size zero.  When a size comes out, it is the
    one the trainer is given. *)
Theorem reward_grad_window_cases :
  forall eps_length : Z,
    ((0 < eps_length)%Z ->
     reward_grad_window eps_length = Window (100000 / eps_length + 1) /\
     (1 <= 100000 / eps_length + 1)%Z) /\
    (eps_length = 0%Z -> reward_grad_window eps_length = WindowZeroDivisionError) /\
    ((-100000 < eps_length < 0)%Z ->
     reward_grad_window eps_length = WindowValueError) /\
    ((eps_length <= -100000)%Z -> reward_grad_window eps_length = Window 0) /\
    (forall maxlen policy n_steps gp_threshold gp_k,
       reward_grad_window eps_length = Window maxlen ->
       _reward_grad_window
         (init_trainer policy n_steps gp_threshold gp_k eps_length) = maxlen).
Proof.
  intros e. unfold reward_grad_window. repeat split.
  - destruct (Z.eqb_spec e 0); [lia|].
    replace (100000 + e)%Z with (100000 + 1 * e)%Z by lia.
    rewrite Z.div_add by lia.
    assert (0 <= 100000 / e)%Z by (apply Z.div_pos; lia).
    destruct (Z.ltb_spec (100000 / e + 1) 0); [lia | reflexivity].
  - assert (0 <= 100000 / e)%Z by (apply Z.div_pos; lia). lia.
  - intros ->. reflexivity.
  - intros [Hlo Hhi]. destruct (Z.eqb_spec e 0); [lia|].
    assert (Hneg : ((100000 + e) / e < 0)%Z).
    { rewrite <- Z.div_opp_opp by lia. apply Z.div_lt_upper_bound; lia. }
    apply Z.ltb_lt in Hneg. now rewrite Hneg.
  - intros Hle. destruct (Z.eqb_spec e 0); [lia|].
    assert (Hz : ((100000 + e) / e = 0)%Z) by (apply Z.div_small_iff; lia).
    now rewrite Hz.
  - intros maxlen p ns thr k. unfold init_trainer. cbn [_reward_grad_window].
    destruct (Z.eqb_spec e 0); [discriminate|].
    destruct (Z.ltb_spec ((100000 + e) / e) 0); [discriminate|].
    now intros [= <-].
Qed.

Lemma reward_grad_window_cases_witness :
  reward_grad_window 512 = Window 196 /\
  reward_grad_window (-1) = WindowValueError.
Proof.
  split.
  - destruct (reward_grad_window_cases 512) as ([H _] & _); [lia|]. exact H.
  - destruct (reward_grad_window_cases (-1)) as (_ & _ & H & _).
    apply H. lia.
Defined.

(** ** The quantities computed on a minibatch *)

Lemma th_sum_cons x l : th_sum (x :: l) = (x + th_sum l)%R.
Proof. reflexivity. Qed.




Lemma th_sum_nonneg l : Forall (fun x => 0 <= x)%R l -> (0 <= th_sum l)%R.
Proof.
  induction 1 as [|x l Hx Hl IH]; [unfold th_sum; simpl; lra|].
  rewrite th_sum_cons. lra.
Qed.

Lemma th_sum_le_length l :
  Forall (fun x => x <= 1)%R l -> (th_sum l <= INR (length l))%R.
Proof.
  induction 1 as [|x l Hx Hl IH]; [unfold th_sum; simpl; lra|].
  rewrite th_sum_cons. simpl length. rewrite S_INR. lra.
Qed.

Lemma inv_INR_nonneg n : (0 <= / INR n)%R.
Proof.
  destruct n as [|n]; [simpl; rewrite Rinv_0; lra|].
  left. apply Rinv_0_lt_compat, lt_0_INR. lia.
Qed.

Lemma th_mean_nonneg l : Forall (fun x => 0 <= x)%R l -> (0 <= th_mean l)%R.
Proof.
  intros H. unfold th_mean, Rdiv.
  apply Rmult_le_pos; [now apply th_sum_nonneg | apply inv_INR_nonneg].
Qed.

Lemma th_mean_le_1 l : Forall (fun x => x <= 1)%R l -> (th_mean l <= 1)%R.
Proof.
  intros H. unfold th_mean. destruct l as [|x l].
  - unfold th_sum. simpl. unfold Rdiv. rewrite Rinv_0. lra.
  - assert (Hpos : (0 < INR (length (x :: l)))%R)
      by (apply lt_0_INR; simpl; lia).
    apply th_sum_le_length in H.
    apply (Rmult_le_reg_r (INR (length (x :: l)))); [exact Hpos|].
    unfold Rdiv. rewrite Rmult_assoc, Rinv_l by lra. lra.
Qed.

Lemma th_mean_zeros l : Forall (fun x => x = 0%R) l -> th_mean l = 0%R.
Proof.
  intros H. unfold th_mean. rewrite th_sum_zeros by exact H.
  unfold Rdiv. ring.
Qed.

Lemma map2_same (A C : Type) (f : A -> A -> C) l :
  map2 f l l = map (fun a => f a a) l.
Proof.
  induction l as [|a l IH]; [reflexivity|].
  rewrite map2_cons. simpl. now rewrite IH.
Qed.

Section MinibatchQuantities.

Variables Params Obs Action Noise : Type.
Variable evaluate_actions :
  Params -> list Obs -> list Action -> list R * list R * option (list R).
Variable forward_log_prob : Params -> list Obs -> Noise -> list R.
Variable hp : hyperparams.
Variable clip_range : R.
Variable clip_range_vf : option R.

Lemma l_clip_fraction_eq (h : heap Params) self (data : rollout_data Obs Action) idx :
  l_clip_fraction
    (compute_losses evaluate_actions forward_log_prob h self hp clip_range
       clip_range_vf data idx)
  = th_mean
      (map (fun r => indicator (Rgt_dec (Rabs (r - 1)) clip_range))
         (map exp
            (map2 Rminus
               (snd (fst (evaluate_actions (h (policy self)) (observations data)
                            (actions data))))
               (old_log_prob data)))).
Proof.
  unfold compute_losses.
  now destruct (evaluate_actions _ _ _) as [[values log_prob] entropy].
Qed.

Lemma l_value_loss_nonneg (h : heap Params) self (data : rollout_data Obs Action) idx :
  (0 <= l_value_loss
          (compute_losses evaluate_actions forward_log_prob h self hp clip_range
             clip_range_vf data idx))%R.
Proof.
  unfold compute_losses.
  destruct (evaluate_actions _ _ _) as [[values log_prob] entropy]. simpl.
  apply th_mean_nonneg. unfold map2. apply Forall_forall.
  intros x Hx. apply in_map_iff in Hx as (ab & <- & _).
  set (d := (fst ab - snd ab)%R). change (0 <= d * d)%R. nra.
Qed.

End MinibatchQuantities.

(** X12.  On every minibatch the value loss is non-negative and the clip
    fraction lies between 0 and 1.  When the policy evaluates the actions of
    the minibatch to the very log-probabilities stored with the rollout, the
    approximate KL divergence is zero, the clip fraction is zero for a
    non-negative clip range, and the early stop does not fire for a
    non-negative [target_kl]. *)
Theorem minibatch_statistics_ranges :
  forall (Params Obs Action Noise : Type)
         (evaluate_actions :
            Params -> list Obs -> list Action -> list R * list R * option (list R))
         (forward_log_prob : Params -> list Obs -> Noise -> list R)
         (h : heap Params) (self : trainer) (hp : hyperparams)
         (clip_range : R) (clip_range_vf : option R)
         (data : rollout_data Obs Action) (idx : draws Noise),
    let l := compute_losses evaluate_actions forward_log_prob h self hp
               clip_range clip_range_vf data idx in
    (0 <= l_value_loss l)%R /\
    (0 <= l_clip_fraction l <= 1)%R /\
    (snd (fst (evaluate_actions (h (policy self)) (observations data)
                 (actions data))) = old_log_prob data ->
     l_approx_kl_div l = 0%R /\
     ((0 <= clip_range)%R -> l_clip_fraction l = 0%R) /\
     (forall t, target_kl hp = Some t -> (0 <= t)%R ->
                exceeds_target_kl (target_kl hp) (l_approx_kl_div l) = false)).
Proof.
  intros Params Obs Action Noise eval fwd h self hp clip clipvf data idx l. subst l.
  rewrite l_approx_kl_div_eq, l_clip_fraction_eq.
  split; [|split].
  - apply l_value_loss_nonneg.
  - split.
    + apply th_mean_nonneg, Forall_forall. intros x Hx.
      apply in_map_iff in Hx as (r & <- & _).
      unfold indicator. destruct (Rgt_dec _ _); lra.
    + apply th_mean_le_1, Forall_forall. intros x Hx.
      apply in_map_iff in Hx as (r & <- & _).
      unfold indicator. destruct (Rgt_dec _ _); lra.
  - intros ->. rewrite map2_same, !map_map.
    assert (Hkl : th_mean (map (fun x => exp (x - x) - 1 - (x - x))%R
                             (old_log_prob data)) = 0%R).
    { apply th_mean_zeros, Forall_forall. intros x Hx.
      apply in_map_iff in Hx as (lr & <- & _).
      replace (lr - lr)%R with 0%R by ring. rewrite exp_0. ring. }
    split; [exact Hkl|]. split.
    + intros Hc. apply th_mean_zeros, Forall_forall. intros x Hx.
      apply in_map_iff in Hx as (lr & <- & _).
      replace (lr - lr)%R with 0%R by ring. rewrite exp_0.
      replace (1 - 1)%R with 0%R by ring. rewrite Rabs_R0.
      unfold indicator. destruct (Rgt_dec 0 clip); [lra | reflexivity].
    + intros t Ht Hpos. rewrite Hkl, Ht. unfold exceeds_target_kl.
      destruct (Rgt_dec 0 (1.5 * t)); [lra | reflexivity].
Qed.

Lemma minibatch_statistics_ranges_witness :
  let hp := mkHyper 64 1 true 0 0.5 0.5 (Some 0.01%R) 300 0.1 0 in
  let self := init_trainer 0%nat 512 (5 # 10) 5 512 in
  let data := mkRollout [tt] [0%nat] [0%R] [(-3)%R] [1%R] [0%R] in
  l_approx_kl_div
    (compute_losses tabular_evaluate_actions tabular_forward_log_prob
       (fun _ => [(-3)%R]) self hp 0.2 None data first_state) = 0%R.
Proof.
  intros hp self data.
  apply (@minibatch_statistics_ranges (list R) unit nat (list nat)). reflexivity.
Defined.

(** ** What the loops of [train] do to the store and to the counters *)

Lemma heap_set_other (Params : Type) (h : heap Params) l l' p :
  l' <> l -> heap_set h l p l' = h l'.
Proof.
  intros Hne. unfold heap_set. apply Nat.eqb_neq in Hne. now rewrite Hne.
Qed.

Section LoopCounters.

Variables Params Obs Action Noise : Type.
Variable evaluate_actions :
  Params -> list Obs -> list Action -> list R * list R * option (list R).
Variable forward_log_prob : Params -> list Obs -> Noise -> list R.
Variable optimizer_step : (Params -> R) -> R -> Params -> Params.
Variable hp : hyperparams.
Variable clip_range : R.
Variable clip_range_vf : option R.

Lemma run_minibatches_frame epoch batches : forall st,
  let st' := fst (run_minibatches evaluate_actions forward_log_prob
                    optimizer_step hp clip_range clip_range_vf epoch st batches) in
  _n_updates st' = _n_updates st /\
  policy (self_ st') = policy (self_ st) /\
  (forall l, l <> policy (self_ st) -> store st' l = store st l) /\
  (length (pg_losses st') <= length (pg_losses st) + length batches)%nat /\
  (target_kl hp = None ->
   snd (run_minibatches evaluate_actions forward_log_prob optimizer_step hp
          clip_range clip_range_vf epoch st batches) = true /\
   length (pg_losses st') = (length (pg_losses st) + length batches)%nat).
Proof.
  induction batches as [|[data idx] rest IH]; intros st; cbn zeta.
  - simpl. repeat split; lia.
  - simpl run_minibatches.
    set (l := compute_losses _ _ _ _ _ _ _ _ _).
    destruct (exceeds_target_kl (target_kl hp) (l_approx_kl_div l)) eqn:E.
    + destruct (1 <=? verbose hp)%Z; simpl;
        (split; [reflexivity|]; split; [reflexivity|];
         split; [intros; reflexivity|];
         split; [rewrite length_app; simpl; lia|];
         intros Hn; rewrite Hn in E; discriminate).
    + specialize (IH (set_store (log_losses st l)
                        (optimization_step evaluate_actions forward_log_prob
                           optimizer_step (store st) (self_ st) hp clip_range
                           clip_range_vf data idx))).
      cbn zeta in IH. simpl in IH. destruct IH as (I1 & I2 & I3 & I4 & I5).
      split; [exact I1|]. split; [exact I2|]. split; [|split].
      * intros l0 Hl. rewrite (I3 l0 Hl).
        unfold optimization_step. now apply heap_set_other.
      * rewrite length_app in I4. simpl in *. lia.
      * intros Hn. destruct (I5 Hn) as [I6 I7]. split; [exact I6|].
        rewrite I7, length_app. simpl. lia.
Qed.

Lemma run_epochs_frame rollout_buffer_get epochs : forall st,
  let st' := run_epochs evaluate_actions forward_log_prob optimizer_step hp
               clip_range clip_range_vf rollout_buffer_get st epochs in
  (_n_updates st <= _n_updates st' <= _n_updates st + length epochs)%nat /\
  (epochs <> [] -> (_n_updates st < _n_updates st')%nat) /\
  policy (self_ st') = policy (self_ st) /\
  (forall l, l <> policy (self_ st) -> store st' l = store st l) /\
  (target_kl hp = None ->
   _n_updates st' = (_n_updates st + length epochs)%nat /\
   length (pg_losses st')
   = (length (pg_losses st)
      + list_sum (map (fun epoch => length (rollout_buffer_get epoch)) epochs))%nat).
Proof.
  induction epochs as [|epoch later IH]; intros st; cbn zeta.
  - simpl. repeat split; try lia. congruence.
  - simpl run_epochs.
    pose proof (run_minibatches_frame epoch (rollout_buffer_get epoch)
                  (begin_epoch st)) as Hm.
    cbn zeta in Hm.
    destruct (run_minibatches _ _ _ _ _ _ _ _ _) as [st1 continue_training].
    simpl in Hm. destruct Hm as (M1 & M2 & M3 & M4 & M5).
    destruct continue_training.
    + specialize (IH (end_epoch st1)). cbn zeta in IH. simpl in IH.
      destruct IH as (I1 & I2 & I3 & I4 & I5).
      split; [simpl; lia|]. split; [intros _; simpl; lia|].
      split; [congruence|]. split.
      * intros l Hl. rewrite I4 by congruence. now apply M3.
      * intros Hn. destruct (I5 Hn) as [I6 I7]. destruct (M5 Hn) as [_ M6].
        simpl. lia.
    + simpl. split; [lia|]. split; [intros _; lia|].
      split; [exact M2|]. split; [exact M3|].
      intros Hn. destruct (M5 Hn) as [M6 _]. discriminate.
Qed.

End LoopCounters.

(** X13.  A call of [train] changes the parameters of no object of the
    store but the live policy, and the live policy stays the same object.
    It counts at most [n_epochs] passes, and at least one when
    [n_epochs > 0].  Without a [target_kl] it counts exactly [n_epochs]
    passes and logs the losses of every minibatch of every pass. *)
Theorem train_store_and_counters :
  forall (Params Obs Action Noise : Type)
         (evaluate_actions :
            Params -> list Obs -> list Action -> list R * list R * option (list R))
         (forward_log_prob : Params -> list Obs -> Noise -> list R)
         (optimizer_step : (Params -> R) -> R -> Params -> Params)
         (self : trainer) (h : heap Params) (n_updates : nat)
         (hp : hyperparams) (clip_range : R) (clip_range_vf : option R)
         (rollout_buffer_get : nat -> list (rollout_data Obs Action * draws Noise))
         (ep_info_buffer : list Q),
    let st := fst (train evaluate_actions forward_log_prob optimizer_step self h
                     n_updates hp clip_range clip_range_vf rollout_buffer_get
                     ep_info_buffer) in
    (forall l, l <> policy self -> store st l = h l) /\
    policy (self_ st) = policy self /\
    (n_updates <= _n_updates st <= n_updates + n_epochs hp)%nat /\
    ((0 < n_epochs hp)%nat -> (n_updates < _n_updates st)%nat) /\
    (target_kl hp = None ->
     _n_updates st = (n_updates + n_epochs hp)%nat /\
     length (pg_losses st)
     = list_sum (map (fun epoch => length (rollout_buffer_get epoch))
                   (seq 0 (n_epochs hp)))).
Proof.
  intros Params Obs Action Noise eval fwd opt self h n hp clip clipvf get buf st.
  subst st. unfold train.
  pose proof (run_epochs_frame eval fwd opt hp clip clipvf get
                (seq 0 (n_epochs hp)) (mkLoop self h n [] [] [] [] [])) as Hf.
  cbn zeta in Hf. rewrite length_seq in Hf. simpl in Hf.
  set (st := run_epochs _ _ _ _ _ _ _ _ _) in *.
  destruct Hf as (F1 & F2 & F3 & F4 & F5).
  assert (Hp : policy (fst (task_change_detection (self_ st) buf))
               = policy (self_ st)).
  { unfold task_change_detection. destruct buf as [|r rs]; [reflexivity|].
    set (s := set_episodic_rewards (self_ st) _).
    assert (Hd : policy (fst (detect_task_change s (r :: rs))) = policy s).
    { unfold detect_task_change.
      destruct (previous_rewards s) as [|r0 rs0]; [reflexivity|].
      destruct (crossed_million s); [|reflexivity].
      simpl. now destruct (good_policies (self_ st)) as [|[[p q] t] g]. }
    destruct (detect_task_change s (r :: rs)) as [s' [e|]]; simpl in *;
      [exact Hd|].
    rewrite update_good_policies_policy. exact Hd. }
  destruct (task_change_detection (self_ st) buf) as [s e]. simpl in *.
  split; [exact F4|]. split; [congruence|]. split; [lia|]. split.
  - intros Hpos. apply F2. destruct (n_epochs hp); [lia | discriminate].
  - exact F5.
Qed.

Lemma train_store_and_counters_witness :
  let hp := mkHyper 64 3 true 0 0.5 0.5 None 300 0.1 0 in
  let self := init_trainer 0%nat 512 (5 # 10) 5 512 in
  let data := mkRollout [tt] [0%nat] [0%R] [(-3)%R] [1%R] [0%R] in
  _n_updates
    (fst (train tabular_evaluate_actions tabular_forward_log_prob
            shift_optimizer_step self (fun _ => [(-1)%R]) 0 hp 0.2 None
            (fun _ => [(data, first_state); (data, first_state)]) []))
  = 3%nat.
Proof.
  intros hp self data.
  apply (@train_store_and_counters (list R) unit nat (list nat)). reflexivity.
Defined.

(** ** The clipped surrogate, case by case *)

(** X15.  For a non-negative clip range the clipping is one-sided.  With a
    non-negative advantage the surrogate of a sample is the advantage times
    the ratio capped at [1 + clip_range], so a ratio below the band is not
    clipped; with a non-positive advantage it is the advantage times the
    ratio floored at [1 - clip_range], so a ratio above the band is not
    clipped.  In both cases the surrogate is at most the unclipped term. *)
Theorem clipped_surrogate_one_sided :
  forall (clip_range advantage ratio : R),
    (0 <= clip_range)%R ->
    ((0 <= advantage)%R ->
     clipped_surrogate clip_range advantage ratio
     = (advantage * Rmin ratio (1 + clip_range))%R) /\
    ((advantage <= 0)%R ->
     clipped_surrogate clip_range advantage ratio
     = (advantage * Rmax ratio (1 - clip_range))%R) /\
    (clipped_surrogate clip_range advantage ratio <= advantage * ratio)%R.
Proof.
  intros eps A r Heps. unfold clipped_surrogate, th_clamp.
  split; [|split].
  - intros HA. unfold Rmin, Rmax.
    repeat (destruct (Rle_dec _ _)); try lra; try nra.
  - intros HA. unfold Rmin, Rmax.
    repeat (destruct (Rle_dec _ _)); try lra; try nra.
  - apply Rmin_l.
Qed.

Lemma clipped_surrogate_one_sided_witness :
  clipped_surrogate 0.2 2 0.5 = (2 * Rmin 0.5 (1 + 0.2))%R.
Proof.
  apply clipped_surrogate_one_sided; lra.
Defined.

(** ** The outcomes of the sanity checks *)

(** X18.  The sanity checks of the constructor raise [AssertionError]
    exactly when normalization is enabled and either [batch_size <= 1] or an
    environment is given with [n_steps * n_envs <= 1]; they raise
    [ZeroDivisionError] exactly when normalization is disabled, an
    environment is given and [batch_size = 0]; they never raise
    [IndexError]; and when they warn, the batch size is positive and does
    not divide the buffer size. *)
Theorem init_checks_outcomes :
  forall (normalize_advantage : bool) (batch_size : Z) (env : option Z)
         (n_steps : Z),
    let outcome := init_checks normalize_advantage batch_size env n_steps in
    (outcome = Raised AssertionError <->
     normalize_advantage = true /\
     ((batch_size <= 1)%Z \/
      exists num_envs, env = Some num_envs /\ (num_envs * n_steps <= 1)%Z)) /\
    (outcome = Raised ZeroDivisionError <->
     normalize_advantage = false /\ batch_size = 0%Z /\ env <> None) /\
    outcome <> Raised IndexError /\
    (forall w ws, outcome = Passed (w :: ws) ->
       ws = [] /\ (0 < batch_size)%Z /\
       exists num_envs, env = Some num_envs /\
                        ((num_envs * n_steps) mod batch_size <> 0)%Z).
Proof.
  intros norm bs env ns outcome. subst outcome. unfold init_checks.
  destruct norm; simpl.
  - destruct (Z.ltb_spec 1 bs) as [Hbs|Hbs]; simpl.
    + destruct env as [ne|]; simpl.
      * rewrite orb_false_r.
        destruct (Z.ltb_spec 1 (ne * ns)) as [Hbuf|Hbuf]; simpl.
        -- destruct (Z.eqb_spec bs 0) as [->|Hnz]; [lia|].
           destruct (Z.ltb_spec 0 ((ne * ns) mod bs)) as [Hmod|Hmod];
             (split; [split; [discriminate | intros (_ & [H | (x & [= <-] & H)]); lia]|]);
             (split; [split; [discriminate | intros (H & _); discriminate]|]);
             (split; [discriminate|]); intros w ws [= <- <-].
           split; [reflexivity|]. split; [lia|]. exists ne. split; [reflexivity | lia].
        -- split; [split; [intros _; split; [reflexivity|]; right; now exists ne
                          | reflexivity]|].
           split; [split; [discriminate | intros (H & _); discriminate]|].
           split; [discriminate | discriminate].
      * split; [split; [discriminate | intros (_ & [H | (x & [=] & _)]); lia]|].
        split; [split; [discriminate | intros (H & _); discriminate]|].
        split; [discriminate | discriminate].
    + split; [split; [intros _; split; [reflexivity | now left] | reflexivity]|].
      split; [split; [discriminate | intros (H & _); discriminate]|].
      split; [discriminate | discriminate].
  - destruct env as [ne|]; simpl.
    + rewrite orb_true_r. simpl.
      destruct (Z.eqb_spec bs 0) as [->|Hnz].
      * split; [split; [discriminate | intros (H & _); discriminate]|].
        split; [split; [intros _; repeat split; discriminate | reflexivity]|].
        split; [discriminate | discriminate].
      * destruct (Z.ltb_spec 0 ((ne * ns) mod bs)) as [Hmod|Hmod];
          (split; [split; [discriminate | intros (H & _); discriminate]|]);
          (split; [split; [discriminate | intros (_ & H & _); contradiction]|]);
          (split; [discriminate|]); intros w ws [= <- <-].
        split; [reflexivity|]. split.
        -- destruct (Z.lt_trichotomy bs 0) as [Hneg | [Hz | Hpos]];
             [|contradiction | exact Hpos].
           pose proof (Z.mod_neg_bound (ne * ns) bs Hneg). lia.
        -- exists ne. split; [reflexivity | lia].
    + split; [split; [discriminate | intros (H & _); discriminate]|].
      split; [split; [discriminate | intros (_ & _ & H); contradiction]|].
      split; [discriminate | discriminate].
Qed.

Lemma init_checks_outcomes_witness :
  init_checks false 0 (Some 1%Z) 512 = Raised ZeroDivisionError.
Proof.
  apply init_checks_outcomes. repeat split; discriminate.
Defined.


Lemma archive_sorted_and_accepted_only_witness :
  StronglySorted newer_first
    (good_policies
       (consider_all (set_good_policies (init_trainer 0%nat 512 (5 # 10) 2 512) [])
          [(9 # 10, 300%Z); (6 # 10, 100%Z); (7 # 10, 200%Z)])).
Proof.
  apply (archive_sorted_and_accepted_only (init_trainer 0%nat 512 (5 # 10) 2 512)).
Defined.

(** ** The task-change counter over successive iterations *)

Lemma floor_step (t n : Z) :
  (0 <= n <= 1000000)%Z ->
  (t / 1000000 <= (t + n) / 1000000 <= t / 1000000 + 1)%Z.
Proof.
  intros Hn. split.
  - apply Z.div_le_mono; lia.
  - replace (t / 1000000 + 1)%Z with ((t + 1 * 1000000) / 1000000)%Z
      by (rewrite Z.div_add by lia; reflexivity).
    apply Z.div_le_mono; lia.
Qed.

Lemma detector_run_counts k : forall self current_rewards,
  previous_rewards self <> [] ->
  good_policies self <> [] ->
  (0 <= n_steps self <= 1000000)%Z ->
  td_counter (detector_run k self current_rewards)
  = (td_counter self
     + ((num_timesteps self + Z.of_nat k * n_steps self) / 1000000
        - num_timesteps self / 1000000))%Z /\
  num_timesteps (detector_run k self current_rewards)
  = (num_timesteps self + Z.of_nat k * n_steps self)%Z.
Proof.
  induction k as [|k IH]; intros self rewards Hprev Hne Hn.
  - simpl. rewrite Z.add_0_r. split; lia.
  - simpl detector_run.
    set (s := set_num_timesteps self (num_timesteps self + n_steps self)).
    set (s' := fst (detect_task_change s rewards)).
    assert (Hs' : td_counter s'
              = (td_counter self
                 + ((num_timesteps self + n_steps self) / 1000000
                    - num_timesteps self / 1000000))%Z
              /\ num_timesteps s' = (num_timesteps self + n_steps self)%Z
              /\ n_steps s' = n_steps self
              /\ previous_rewards s' = previous_rewards self
              /\ good_policies s' = good_policies self).
    { unfold s', detect_task_change.
      change (previous_rewards s) with (previous_rewards self).
      destruct (previous_rewards self) as [|r rs] eqn:Ep; [congruence|].
      unfold crossed_million. simpl num_timesteps. simpl n_steps.
      replace (num_timesteps self + n_steps self - n_steps self)%Z
        with (num_timesteps self) by lia.
      pose proof (floor_step (num_timesteps self) Hn) as Hf.
      destruct (Z.eqb_spec ((num_timesteps self + n_steps self) / 1000000)
                  (num_timesteps self / 1000000)) as [E|E]; simpl.
      - repeat split; try assumption. lia.
      - change (good_policies s) with (good_policies self).
        destruct (good_policies self) as [|[[p q] t] g] eqn:Eg; [congruence|].
        simpl. rewrite Eg, Ep. repeat split. lia. }
    destruct Hs' as (H1 & H2 & H3 & H4 & H5).
    destruct (IH s' rewards) as [I1 I2]; [congruence | congruence | lia |].
    rewrite I1, I2, H1, H2, H3. split; [|lia].
    replace (num_timesteps self + n_steps self + Z.of_nat k * n_steps self)%Z
      with (num_timesteps self + Z.of_nat (S k) * n_steps self)%Z by lia.
    lia.
Qed.

(** X19.  Over successive detector calls whose step counter advances by
    [n_steps], at most one million, per call, with previous rewards and a
    non-empty archive, the task-change counter grows by the number of
    millions crossed: the whole millions in the final step count minus those
    in the initial one.  No crossing is missed and none is counted twice. *)
Theorem detector_counts_every_million :
  forall (k : nat) (self : trainer) (current_rewards : list Q),
    previous_rewards self <> [] ->
    good_policies self <> [] ->
    (0 <= n_steps self <= 1000000)%Z ->
    let final := detector_run k self current_rewards in
    num_timesteps final = (num_timesteps self + Z.of_nat k * n_steps self)%Z /\
    td_counter final
    = (td_counter self
       + (num_timesteps final / 1000000 - num_timesteps self / 1000000))%Z.
Proof.
  intros k self rewards Hprev Hne Hn final. subst final.
  destruct (@detector_run_counts k self rewards Hprev Hne Hn) as [H1 H2].
  split; [exact H2|]. rewrite H1, H2. reflexivity.
Qed.

Lemma detector_counts_every_million_witness :
  td_counter
    (detector_run 5000
       (set_good_policies
          (set_previous_rewards (init_trainer 0%nat 512 (5 # 10) 5 512) [1%Q])
          [(0%nat, 6 # 10, 0%Z)])
       [1%Q]) = 2%Z.
Proof.
  destruct (@detector_counts_every_million 5000
              (set_good_policies
                 (set_previous_rewards (init_trainer 0%nat 512 (5 # 10) 5 512)
                    [1%Q])
                 [(0%nat, 6 # 10, 0%Z)])
              [1%Q]) as [H1 H2];
    [discriminate | discriminate | simpl; lia |].
  rewrite H2, H1. reflexivity.
Defined.
